(** * Skill orchestration layer: agent graph and image-generation skill

  A shallow embedding of two skills of the skill-template package:

  - [packages/skill-template/src/skills/agent.ts]: the [Agent] skill
    ([commonPreprocess], [setupAgent], [agentNode] and the llm/tools
    workflow it builds);
  - the [ImageGeneration] skill ([generateImage], with its stream
    reading loop and the two regular expressions it applies to the
    accumulated response text).

  JavaScript strings are sequences of UTF-16 code units; asynchronous
  and throwing code is written in a small trace-and-exception monad;
  collaborators that live outside these two files (query processor,
  crawler, context preparer, MCP client, chat model, HTTP endpoint,
  clock) are fields of an environment record.

  The first half of the file holds the definitions (strings, patterns,
  effects, the two skills, sample runs); the second half holds the
  lemmas and the theorems about them. *)

From Stdlib Require Import ZArith NArith List String Ascii Bool Lia DecimalString.
Import ListNotations.


(* ================================================================== *)
(** * JavaScript strings *)
(* ================================================================== *)

Module JS.

(** A UTF-16 code unit. *)
Definition codeunit := N.

(** A JavaScript string value. *)
Definition jsstring := list codeunit.

(** Source literals are written as Rocq strings (UTF-8 bytes); [decode]
    turns the bytes into UTF-16 code units. *)
Fixpoint decode (bs : list N) : jsstring :=
  match bs with
  | [] => []
  | b0 :: t0 =>
    if (b0 <? 128)%N then b0 :: decode t0
    else
      match t0 with
      | [] => [65533%N]
      | b1 :: t1 =>
        if (b0 <? 224)%N then ((b0 mod 32) * 64 + b1 mod 64)%N :: decode t1
        else
          match t1 with
          | [] => [65533%N]
          | b2 :: t2 =>
            if (b0 <? 240)%N
            then ((b0 mod 16) * 4096 + (b1 mod 64) * 64 + b2 mod 64)%N :: decode t2
            else
              match t2 with
              | [] => [65533%N]
              | b3 :: t3 =>
                let cp := ((b0 mod 8) * 262144 + (b1 mod 64) * 4096
                           + (b2 mod 64) * 64 + b3 mod 64 - 65536)%N in
                (55296 + cp / 1024)%N :: (56320 + cp mod 1024)%N :: decode t3
              end
          end
      end
  end.

Definition js (s : string) : jsstring :=
  decode (map N_of_ascii (list_ascii_of_string s)).

(** Truthiness of a string: the empty string is falsy. *)
Definition truthy (s : jsstring) : bool :=
  match s with [] => false | _ :: _ => true end.

(** Truthiness of an optional string ([undefined] is falsy). *)
Definition truthy_opt (o : option jsstring) : bool :=
  match o with Some s => truthy s | None => false end.

(** [a ?? b] *)
Definition nullish (o : option jsstring) (d : jsstring) : jsstring :=
  match o with Some s => s | None => d end.

(** [a || b] on strings. *)
Definition or_else (s d : jsstring) : jsstring :=
  if truthy s then s else d.

(** Decimal rendering of an integer inside a template literal. *)
Definition ofZ (z : Z) : jsstring :=
  js (NilEmpty.string_of_int (Z.to_int z)).

Definition jseqb (a b : jsstring) : bool :=
  if list_eq_dec N.eq_dec a b then true else false.

(** [s.substring(0, n)] for [n >= 0]. *)
Definition substring0 (n : nat) (s : jsstring) : jsstring := firstn n s.

End JS.

(* ================================================================== *)
(** * Regular expressions of the stream parser *)
(* ================================================================== *)

Module Regex.
Import JS.

(** The fragment of regular expressions used by [generateImage]:
    literal characters, the lazy wildcard [.*?] and one capture group. *)
Inductive item :=
| Chr (c : codeunit)
| LazyDots
| GroupOpen
| GroupClose.

Definition pattern := list item.

Definition chars (s : string) : pattern := map Chr (js s).

(** [.] matches every code unit except the line terminators
    LF, CR, U+2028 and U+2029. *)
Definition isLineTerminator (c : codeunit) : bool :=
  ((c =? 10) || (c =? 13) || (c =? 8232) || (c =? 8233))%N.

(** State of capture group 1 while matching. *)
Record capture := { opened : bool; text : jsstring }.

Definition push (c : codeunit) (g : capture) : capture :=
  if opened g then {| opened := true; text := text g ++ [c] |} else g.

(** [.*?] followed by the continuation [k]: the continuation is tried
    first, one more character is consumed only when it fails. *)
Fixpoint lazyDots (k : jsstring -> capture -> option jsstring)
         (s : jsstring) (g : capture) : option jsstring :=
  match k s g with
  | Some r => Some r
  | None =>
    match s with
    | [] => None
    | c :: s' => if isLineTerminator c then None else lazyDots k s' (push c g)
    end
  end.

(** Backtracking match of [p] anchored at the head of [s]; the result
    is the text of capture group 1. *)
Fixpoint matchAt (p : pattern) (s : jsstring) (g : capture) : option jsstring :=
  match p with
  | [] => Some (text g)
  | Chr c :: p' =>
    match s with
    | [] => None
    | x :: s' => if (x =? c)%N then matchAt p' s' (push x g) else None
    end
  | LazyDots :: p' => lazyDots (matchAt p') s g
  | GroupOpen :: p' => matchAt p' s {| opened := true; text := [] |}
  | GroupClose :: p' => matchAt p' s {| opened := false; text := text g |}
  end.

Definition noCapture : capture := {| opened := false; text := [] |}.

(** [s.match(p)?.[1]]: the leftmost match, tried at every index. *)
Fixpoint exec (p : pattern) (s : jsstring) : option jsstring :=
  match matchAt p s noCapture with
  | Some r => Some r
  | None => match s with [] => None | _ :: s' => exec p s' end
  end.

(** [/!\[.*?\]\((https:\/\/.*?)\)/] *)
Definition urlRe : pattern :=
  chars "![" ++ [LazyDots] ++ chars "](" ++ [GroupOpen] ++ chars "https://"
        ++ [LazyDots; GroupClose] ++ chars ")".

(** [/gen_id: `(.*?)`/] *)
Definition genIdRe : pattern :=
  chars "gen_id: `" ++ [GroupOpen; LazyDots; GroupClose] ++ chars "`".

(** The two markers of the sample response. *)
Definition urlMarker : jsstring := js "![x](https://host/img.png)".
Definition genIdMarker : jsstring := js "gen_id: `abc123`".

(** [s] does not contain the code unit [c]. *)
Definition lacks (c : codeunit) (s : jsstring) : bool :=
  forallb (fun x => negb (x =? c)%N) s.

(** The value a successful, truthy group would be assigned from; the
    empty string when there is no match. *)
Definition group1 (p : pattern) (s : jsstring) : jsstring :=
  match exec p s with Some r => r | None => [] end.

End Regex.

Import JS Regex.

(* ================================================================== *)
(** * Effects: a trace of observable actions and thrown errors *)
(* ================================================================== *)

Module Eff.

(** A thrown [Error]: its class name and its [message]. *)
Record JsError := { name : jsstring; message : jsstring }.

(** [new Error(msg)] *)
Definition newError (msg : jsstring) : JsError :=
  {| name := js "Error"; message := msg |}.

Inductive outcome (A : Type) :=
| Return (a : A)
| Throw (e : JsError).

Arguments Return {A} a.
Arguments Throw {A} e.

(** A computation over effects [E]: the effects it performed, in
    order, and how it ended. *)
Definition M (E A : Type) : Type := (list E * outcome A)%type.

Definition ret {E A} (a : A) : M E A := ([], Return a).

Definition throw {E A} (e : JsError) : M E A := ([], Throw e).

Definition bind {E A B} (m : M E A) (k : A -> M E B) : M E B :=
  match snd m with
  | Return a => (fst m ++ fst (k a), snd (k a))
  | Throw e => (fst m, Throw e)
  end.

(** Performing one observable action. *)
Definition perform {E} (e : E) : M E unit := ([e], Return tt).

(** Calling a collaborator: the call is recorded, its outcome is the
    environment's. *)
Definition call {E A} (e : E) (r : outcome A) : M E A := ([e], r).

(** [try { m } catch (error) { h error }] *)
Definition tryCatch {E A} (m : M E A) (h : JsError -> M E A) : M E A :=
  match snd m with
  | Return a => m
  | Throw e => (fst m ++ fst (h e), snd (h e))
  end.

(** [try { m } finally { c }], for a cleanup [c] that returns normally. *)
Definition tryFinally {E A} (m : M E A) (c : M E unit) : M E A :=
  match snd c with
  | Return _ => (fst m ++ fst c, snd m)
  | Throw e => (fst m ++ fst c, Throw e)
  end.

Definition trace {E A} (m : M E A) : list E := fst m.
Definition result {E A} (m : M E A) : outcome A := snd m.

Declare Scope eff_scope.
Delimit Scope eff_scope with eff.
Notation "x <- m ;; k" := (bind m (fun x => k))
  (at level 61, m at next level, right associativity) : eff_scope.
Notation "' pat <- m ;; k" := (bind m (fun x => match x with pat => k end))
  (at level 61, pat pattern, m at next level, right associativity) : eff_scope.
Notation "m ;;; k" := (bind m (fun _ => k))
  (at level 61, right associativity) : eff_scope.

End Eff.

Import Eff.

(* ================================================================== *)
(** * The image-generation skill *)
(* ================================================================== *)

Module ImageGeneration.

Open Scope eff_scope.

(** ** Data *)

(** [tplConfig]: every option is read as [tplConfig?.key?.value]. *)
Record TplConfig := {
  tpl_apiUrl : option jsstring;
  tpl_apiKey : option jsstring;
  tpl_imageRatio : option jsstring;
  tpl_model : option jsstring }.

(** [ImageGenerationState]: the fields [generateImage] destructures. *)
Record ImageGenerationState := {
  st_query : option jsstring;
  st_gen_id : option jsstring }.

Record SkillRunnableConfig := { tplConfig : option TplConfig }.

(** The JSON block sent as the user message ([finalConfig]). *)
Record FinalConfig := {
  fc_prompt : jsstring;
  fc_ratio : jsstring;
  fc_gen_id : option jsstring }.

(** The POST request; the body [{stream: true, model, messages}] is
    kept structured. *)
Record Request := {
  req_url : jsstring;
  req_authorization : jsstring;
  req_stream : bool;
  req_model : jsstring;
  req_content : FinalConfig }.

(** What [fetch] resolves to: [ok], [status], the text of an error
    body, and the body stream as the decoded text of its chunks
    ([None] when [response.body?.getReader()] is undefined). *)
Record Response := {
  ok : bool;
  status : Z;
  errorText : jsstring;
  body : option (list jsstring) }.

Record ArtifactMetadata := {
  am_url : jsstring;
  am_prompt : jsstring;
  am_gen_id : jsstring;
  am_model : jsstring;
  am_ratio : jsstring;
  am_mimeType : jsstring }.

Record Artifact := {
  art_entityId : jsstring;
  art_type : jsstring;
  art_title : jsstring;
  art_content : jsstring;
  art_status : jsstring;
  art_metadata : ArtifactMetadata }.

Record NodeMetadata := {
  nm_imageUrl : jsstring;
  nm_imageType : jsstring;
  nm_storageKey : jsstring;
  nm_showBorder : bool;
  nm_showTitle : bool;
  nm_sizeMode : jsstring;
  nm_prompt : jsstring;
  nm_gen_id : jsstring;
  nm_model : jsstring;
  nm_ratio : jsstring;
  nm_originalWidth : Z;
  nm_style : list (jsstring * jsstring) }.

Record CanvasNodeData := {
  nd_title : jsstring;
  nd_entityId : jsstring;
  nd_metadata : NodeMetadata }.

Record CanvasNode := {
  cn_type : jsstring;
  cn_data : CanvasNodeData }.

Inductive ContentPart :=
| ImageUrlPart (url detail : jsstring)
| TextPart (text : jsstring).

Inductive Message :=
| AIMessage (content : list ContentPart)
| SystemMessage (content : jsstring).

(** Events handed to [emitEvent]. *)
Inductive Event :=
| EvLog (key : jsstring) (titleArgs : list (jsstring * jsstring))
| EvArtifact (artifact : Artifact)
| EvCreateNode (node : CanvasNode)
| EvError (error : jsstring).

(** Observable actions of [generateImage]: the step it records, the
    events it emits and the request it sends.  Console output is not
    part of the model. *)
Inductive Effect :=
| SetStep (stepName : jsstring)
| EmitEvent (e : Event)
| FetchCall (r : Request).

(** The outside world of one run: the endpoint, the clock (the value of
    the [n]-th call of [Date.now()]) and the image id generator. *)
Record World := {
  fetch : Request -> outcome Response;
  now : nat -> Z;
  genImageID : jsstring }.

(** ** The stream-reading loop *)

(** [const timeout = 6000000; // 6000 seconds timeout] *)
Definition timeout : Z := 6000000.

Record ReadState := {
  imageUrl : jsstring;
  genId : jsstring;
  fullResponse : jsstring;
  reads : nat;    (* calls of reader.read() so far *)
  ticks : nat     (* calls of Date.now() so far *) }.

(** The body of the loop for a chunk that was read. *)
Definition absorb (st : ReadState) (chunk : jsstring) : ReadState :=
  let full := fullResponse st ++ chunk in
  let urlMatch := exec urlRe full in
  let imageUrl' :=
    if truthy_opt urlMatch && negb (truthy (imageUrl st))
    then nullish urlMatch [] else imageUrl st in
  let genIdMatch := exec genIdRe full in
  let genId' :=
    if truthy_opt genIdMatch && negb (truthy (genId st))
    then nullish genIdMatch [] else genId st in
  {| imageUrl := imageUrl'; genId := genId'; fullResponse := full;
     reads := reads st; ticks := ticks st |}.

(** One more evaluation of the loop condition ([Date.now()] is called). *)
Definition tick (st : ReadState) : ReadState :=
  {| imageUrl := imageUrl st; genId := genId st; fullResponse := fullResponse st;
     reads := reads st; ticks := S (ticks st) |}.

(** One more [await reader.read()]. *)
Definition countRead (st : ReadState) : ReadState :=
  {| imageUrl := imageUrl st; genId := genId st; fullResponse := fullResponse st;
     reads := S (reads st); ticks := ticks st |}.

(** [while (!done && Date.now() - startTime < timeout) { ... }] over the
    chunks still to come.  A stream is the list of its chunks, each given
    as the text [decoder.decode(value, { stream: true })] returns for it;
    the read after the last chunk reports [done]. *)
Fixpoint readLoop (clock : nat -> Z) (startTime : Z)
         (chunks : list jsstring) (st : ReadState) : ReadState :=
  if (clock (ticks st) - startTime <? timeout)%Z then
    match chunks with
    | [] => countRead (tick st)
    | chunk :: rest =>
      let st' := absorb (countRead (tick st)) chunk in
      if truthy (imageUrl st') && truthy (genId st') then st'
      else readLoop clock startTime rest st'
    end
  else tick st.

(** State on entry to the loop: [startTime] was the first clock call. *)
Definition initialRead : ReadState :=
  {| imageUrl := []; genId := []; fullResponse := []; reads := 0; ticks := 1 |}.

Definition readStream (w : World) (chunks : list jsstring) : ReadState :=
  readLoop (now w) (now w 0) chunks initialRead.

(** ** Error messages *)

Definition msgPromptRequired : jsstring := js "A prompt is required for image generation".
Definition msgApiKeyRequired : jsstring := js "API key is required for image generation".
Definition msgHttpFailure (status : Z) (errorText : jsstring) : jsstring :=
  js "图像生成失败: " ++ ofZ status ++ js " - " ++ errorText.
Definition msgNoStream : jsstring := js "无法读取响应流".
Definition msgNoUrl : jsstring := js "无法从响应中提取图像URL".

(** ** generateImage *)

Definition option_bind {A B} (o : option A) (f : A -> option B) : option B :=
  match o with Some a => f a | None => None end.

(** [imageTitle] *)
Definition imageTitle (query : jsstring) : jsstring :=
  js "生成图像: " ++ substring0 30 query
     ++ (if (30 <? List.length query)%nat then js "..." else []).

(** [artifact] *)
Definition imageArtifact (w : World) (query model ratio : jsstring) (st : ReadState)
  : Artifact :=
  {| art_entityId := genImageID w;
     art_type := js "document";
     art_title := imageTitle query;
     art_content := [];
     art_status := js "finish";
     art_metadata :=
       {| am_url := imageUrl st;
          am_prompt := query;
          am_gen_id := or_else (genId st) (js "unknown");
          am_model := model;
          am_ratio := ratio;
          am_mimeType := js "image/png" |} |}.

(** [canvasNode]; [storageKey] is the image id, a dash and the clock. *)
Definition imageNode (w : World) (query model ratio : jsstring) (st : ReadState)
  : CanvasNode :=
  let imageId := genImageID w in
  let storageKey := imageId ++ js "-" ++ ofZ (now w (ticks st)) in
  {| cn_type := js "image";
     cn_data :=
       {| nd_title := imageTitle query;
          nd_entityId := imageId;
          nd_metadata :=
            {| nm_imageUrl := imageUrl st;
               nm_imageType := js "png";
               nm_storageKey := storageKey;
               nm_showBorder := true;
               nm_showTitle := true;
               nm_sizeMode := js "adaptive";
               nm_prompt := query;
               nm_gen_id := or_else (genId st) (js "unknown");
               nm_model := model;
               nm_ratio := ratio;
               nm_originalWidth := 400;
               nm_style := [] |} |} |}.

(** The text part of the final message. *)
Definition imageText (query shownId : jsstring) : jsstring :=
  let lf := [10%N] in
  lf ++ lf ++ js "**生成的图像**" ++ lf ++ lf ++ js "提示词: " ++ query
     ++ lf ++ lf ++ js "图像ID: " ++ shownId.

(** [aiMessage] with its multimodal [aiMessageContent]. *)
Definition imageMessage (query : jsstring) (st : ReadState) : Message :=
  AIMessage [ ImageUrlPart (imageUrl st) (js "high");
              TextPart (imageText query (or_else (genId st) (js "unknown"))) ].

(** The plain [systemMessage] prepared as a fallback. *)
Definition fallbackMessage (query : jsstring) (st : ReadState) : Message :=
  let lf := [10%N] in
  SystemMessage (js "![" ++ imageTitle query ++ js "](" ++ imageUrl st ++ js ")"
                    ++ lf ++ lf ++ js "生成的图像ID: " ++ or_else (genId st) (js "unknown")
                    ++ lf ++ lf ++ js "提示词: " ++ query).

(** The part of [generateImage] after a URL was extracted.  [AIMessage]
    is a data constructor here, so the inner [try] around
    [new AIMessage] takes its first branch and [fallbackMessage] is
    not returned. *)
Definition emitImage (w : World) (query model ratio : jsstring) (st : ReadState)
  : M Effect (list Message) :=
  perform (EmitEvent (EvArtifact (imageArtifact w query model ratio st))) ;;;
  perform (EmitEvent (EvCreateNode (imageNode w query model ratio st))) ;;;
  ret [imageMessage query st].

(** The request built from the prompt and the configuration. *)
Definition requestOf (query : jsstring) (gen_id : option jsstring)
           (apiUrl apiKey ratio model : jsstring) : Request :=
  let finalConfig :=
    {| fc_prompt := query; fc_ratio := ratio;
       fc_gen_id := if truthy_opt gen_id then gen_id else None |} in
  {| req_url := apiUrl;
     req_authorization := js "Bearer " ++ apiKey;
     req_stream := true;
     req_model := model;
     req_content := finalConfig |}.

(** The two progress events emitted before the request is sent. *)
Definition logGenerating (query : jsstring) : Event :=
  EvLog (js "image.generating") [(js "prompt", query)].
Definition logRequest (apiUrl : jsstring) : Event :=
  EvLog (js "image.api.request") [(js "url", apiUrl)].

(** The [try] block from the point where [fetch] has resolved. *)
Definition processResponse (w : World) (query model ratio : jsstring)
           (response : Response) : M Effect (list Message) :=
  if negb (ok response)
  then throw (newError (msgHttpFailure (status response) (errorText response)))
  else
    match body response with
    | None => throw (newError msgNoStream)
    | Some chunks =>
      let st := readStream w chunks in
      if negb (truthy (imageUrl st)) then throw (newError msgNoUrl)
      else emitImage w query model ratio st
    end.

(** The [try] block of [generateImage]. *)
Definition requestImage (w : World) (query : jsstring) (gen_id : option jsstring)
           (apiUrl apiKey ratio model : jsstring) : M Effect (list Message) :=
  perform (EmitEvent (logGenerating query)) ;;;
  let request := requestOf query gen_id apiUrl apiKey ratio model in
  perform (EmitEvent (logRequest apiUrl)) ;;;
  response <- call (FetchCall request) (fetch w request) ;;
  processResponse w query model ratio response.

(** The [catch] block of [generateImage]. *)
Definition handleError (error : JsError) : M Effect (list Message) :=
  perform (EmitEvent (EvError (or_else (message error)
                                       (js "Unknown error during image generation")))) ;;;
  ret [SystemMessage (js "图像生成错误: " ++ message error)].

(** Values read from the state and the configuration, with defaults. *)
Definition promptOf (state : ImageGenerationState) : jsstring :=
  nullish (st_query state) [].
Definition apiUrlOf (config : SkillRunnableConfig) : jsstring :=
  nullish (option_bind (tplConfig config) tpl_apiUrl)
          (js "https://api.tu-zi.com/v1/chat/completions").
Definition apiKeyOf (config : SkillRunnableConfig) : jsstring :=
  nullish (option_bind (tplConfig config) tpl_apiKey) [].
Definition ratioOf (config : SkillRunnableConfig) : jsstring :=
  nullish (option_bind (tplConfig config) tpl_imageRatio) (js "1:1").
Definition modelOf (config : SkillRunnableConfig) : jsstring :=
  nullish (option_bind (tplConfig config) tpl_model) (js "gpt-4o-image-vip").

Definition generateImage (w : World) (state : ImageGenerationState)
           (config : SkillRunnableConfig) : M Effect (list Message) :=
  let query := promptOf state in
  let gen_id := st_gen_id state in
  if negb (truthy query) then throw (newError msgPromptRequired) else
  let apiUrl := apiUrlOf config in
  let apiKey := apiKeyOf config in
  let ratio := ratioOf config in
  let model := modelOf config in
  if negb (truthy apiKey) then throw (newError msgApiKeyRequired) else
  perform (SetStep (js "generateImage")) ;;;
  tryCatch (requestImage w query gen_id apiUrl apiKey ratio model) handleError.

(** The request [generateImage] sends for a state and a configuration. *)
Definition requestFor (state : ImageGenerationState) (config : SkillRunnableConfig)
  : Request :=
  requestOf (promptOf state) (st_gen_id state) (apiUrlOf config) (apiKeyOf config)
            (ratioOf config) (modelOf config).

(** The events of kind [error] among the effects of a run. *)
Definition errorEvents (t : list Effect) : list jsstring :=
  flat_map (fun e => match e with EmitEvent (EvError m) => [m] | _ => [] end) t.

(** All emitted events, in order. *)
Definition events (t : list Effect) : list Event :=
  flat_map (fun e => match e with EmitEvent ev => [ev] | _ => [] end) t.

Definition fetches (t : list Effect) : nat :=
  List.length (filter (fun e => match e with FetchCall _ => true | _ => false end) t).

(** ** Reading a run *)

(** Loop invariant: what was extracted so far is what the two patterns
    find in the accumulated buffer. *)
Definition tracked (st : ReadState) : Prop :=
  imageUrl st = group1 urlRe (fullResponse st) /\
  genId st = group1 genIdRe (fullResponse st).

(** Events that precede the response on every run that reaches [fetch]. *)
Definition prelude (state : ImageGenerationState) (config : SkillRunnableConfig)
  : list Effect :=
  [ SetStep (js "generateImage");
    EmitEvent (logGenerating (promptOf state));
    EmitEvent (logRequest (apiUrlOf config));
    FetchCall (requestFor state config) ].

(** A run that reached the response and failed there: one error event
    with the message of the failure, and the fallback message. *)
Definition reported (run : M Effect (list Message)) (msg : jsstring) : Prop :=
  errorEvents (trace run) = [msg] /\
  result run = Return [SystemMessage (js "图像生成错误: " ++ msg)].

End ImageGeneration.

(* ================================================================== *)
(** * The agent skill *)
(* ================================================================== *)

Module Agent.

Open Scope eff_scope.

Section Skill.

(** Values that the skill only passes along: the chat model description,
    the user, the MCP server list, an MCP tool, the chat model bound to
    its tools, the mentioned-context structure and the prompt module. *)
Context {ModelInfo User McpServers Tool Model MentionedContext PromptModule : Type}.

(** ** Data *)

Record ToolCall := {
  tc_name : jsstring;
  tc_args : jsstring;
  tc_id : jsstring }.

Inductive MessageKind := HumanKind | AIKind | SystemKind | ToolKind.

(** A chat message; [tool_calls] is [undefined] on messages that carry
    no such property. *)
Record Message := {
  kind : MessageKind;
  content : jsstring;
  tool_calls : option (list ToolCall) }.

(** Modelled from the spec: the [Source] record of the openapi schema,
    which the skill only stores and forwards (URL, title, extracted
    text). *)
Record Source := {
  src_url : jsstring;
  src_title : jsstring;
  src_pageContent : jsstring }.

Record GraphState := {
  messages : list Message;
  images : list jsstring;
  gs_query : option jsstring }.

Record Project := {
  projectId : option jsstring;
  customInstructions : option jsstring }.

Record RuntimeConfig := { enabledKnowledgeBase : bool }.

Record UrlItem := { url : option jsstring }.

(** [config.configurable] *)
Record Configurable := {
  locale : option jsstring;
  chatModelInfo : ModelInfo;
  project : option Project;
  runtimeConfig : option RuntimeConfig;
  urls : option (list UrlItem);
  user : User }.

(** What [processQuery] resolves to. *)
Record QueryResult := {
  optimizedQuery : jsstring;
  query : jsstring;
  usedChatHistory : list Message;
  hasContext : bool;
  remainingTokens : Z;
  mentionedContext : MentionedContext;
  rewrittenQueries : list jsstring }.

(** The arguments of [prepareContext]; the last field is the value of
    the [enableKnowledgeBaseSearch] entry put into [tplConfig]. *)
Record PrepareContextArgs := {
  pc_query : jsstring;
  pc_mentionedContext : MentionedContext;
  pc_maxTokens : Z;
  pc_enableMentionedContext : bool;
  pc_rewrittenQueries : list jsstring;
  pc_urlSources : list Source;
  pc_enableKnowledgeBaseSearch : bool }.

Record PreparedContext := {
  contextStr : jsstring;
  pc_sources : list Source }.

(** The arguments of [buildFinalRequestMessages]. *)
Record BuildArgs := {
  ba_module : PromptModule;
  ba_locale : jsstring;
  ba_chatHistory : list Message;
  ba_messages : list Message;
  ba_needPrepareContext : bool;
  ba_context : jsstring;
  ba_images : list jsstring;
  ba_originalQuery : jsstring;
  ba_optimizedQuery : jsstring;
  ba_rewrittenQueries : list jsstring;
  ba_modelInfo : ModelInfo;
  ba_customInstructions : option jsstring }.

(** Observable actions of the agent skill: steps, calls of its
    collaborators with their arguments, and the life of the MCP client.
    Logger and console output is not part of the model. *)
Inductive Effect :=
| SetStep (stepName : jsstring)
| ProcessQuery (shouldSkipAnalysis : bool)
| CrawlExtractedUrls (urlList : list jsstring) (concurrencyLimit batchSize : Z)
| ExtractAndCrawlUrls (text : jsstring) (concurrencyLimit batchSize : Z)
| PrepareContext (args : PrepareContextArgs)
| BuildFinalRequestMessages (args : BuildArgs)
| EmitLargeData (data : list Source)
| ListMcpServers
| NewClient
| InitializeConnections
| GetTools
| BindTools
| ClientClose
| ModelInvoke (input : list Message)
| ToolNodeInvoke (input : list Message).

(** The collaborators of the skill. *)
Record Env := {
  processQuery : GraphState -> Configurable -> bool -> outcome QueryResult;
  isValidUrl : jsstring -> bool;
  crawlExtractedUrls : list jsstring -> outcome (list Source);
  extractAndCrawlUrls : jsstring -> outcome (list Source);
  checkModelContextLenSupport : ModelInfo -> bool;
  prepareContext : PrepareContextArgs -> outcome PreparedContext;
  buildFinalRequestMessages : BuildArgs -> outcome (list Message);
  truncateSource : list Source -> list Source;
  listMcpServers : User -> outcome McpServers;
  initializeConnections : outcome unit;
  getTools : outcome (option (list Tool));
  bindTools : list Tool -> outcome Model;
  invokeModel : Model -> list Message -> outcome Message;
  invokeToolNode : list Tool -> list Message -> outcome (list Message) }.

Variable env : Env.

(** ** commonPreprocess *)

(** [contextUrls.map((item) => item.url).filter((url) => url && isValidUrl(url))] *)
Definition validUrls (contextUrls : list UrlItem) : list jsstring :=
  filter (fun u => truthy u && isValidUrl env u)
         (map (fun item => nullish (url item) []) contextUrls).

(** The block that processes the URLs supplied with the context. *)
Definition crawlContextUrls (config : Configurable) : M Effect (list Source) :=
  let contextUrls := match urls config with Some l => l | None => [] end in
  if (0 <? List.length contextUrls)%nat then
    let urlList := validUrls contextUrls in
    if (0 <? List.length urlList)%nat
    then call (CrawlExtractedUrls urlList 5 8) (crawlExtractedUrls env urlList)
    else ret []
  else ret [].

(** [!!projectId && !!runtimeConfig?.enabledKnowledgeBase] *)
Definition enableKnowledgeBaseSearchOf (config : Configurable) : bool :=
  match project config with Some p => truthy_opt (projectId p) | None => false end
  && match runtimeConfig config with Some r => enabledKnowledgeBase r | None => false end.

(** The second half of [commonPreprocess], from the combined URL
    sources on: context preparation when it is needed, then the message
    builder. *)
Definition assemble (state : GraphState) (config : Configurable)
           (module : PromptModule) (customInstr : option jsstring)
           (q : QueryResult) (urlSources : list Source)
  : M Effect (list Message * list Source) :=
  let enableKnowledgeBaseSearch := enableKnowledgeBaseSearchOf config in
  let hasUrlSources := (0 <? List.length urlSources)%nat in
  let needPrepareContext :=
    (hasContext q || hasUrlSources || enableKnowledgeBaseSearch)
    && (0 <? remainingTokens q)%Z in
  let isModelContextLenSupport := checkModelContextLenSupport env (chatModelInfo config) in
  prepared <-
    (if needPrepareContext then
       perform (SetStep (js "analyzeContext")) ;;;
       let args :=
         {| pc_query := optimizedQuery q;
            pc_mentionedContext := mentionedContext q;
            pc_maxTokens := remainingTokens q;
            pc_enableMentionedContext := hasContext q;
            pc_rewrittenQueries := rewrittenQueries q;
            pc_urlSources := urlSources;
            pc_enableKnowledgeBaseSearch := enableKnowledgeBaseSearch |} in
       preparedRes <- call (PrepareContext args) (prepareContext env args) ;;
       ret (contextStr preparedRes, pc_sources preparedRes)
     else ret ([], [])) ;;
  let context := fst prepared in
  let sources := snd prepared in
  let args :=
    {| ba_module := module;
       ba_locale := nullish (locale config) (js "en");
       ba_chatHistory := usedChatHistory q;
       ba_messages := messages state;
       ba_needPrepareContext := needPrepareContext && isModelContextLenSupport;
       ba_context := context;
       ba_images := images state;
       ba_originalQuery := query q;
       ba_optimizedQuery := optimizedQuery q;
       ba_rewrittenQueries := rewrittenQueries q;
       ba_modelInfo := chatModelInfo config;
       ba_customInstructions := customInstr |} in
  requestMessages <- call (BuildFinalRequestMessages args)
                          (buildFinalRequestMessages env args) ;;
  ret (requestMessages, sources).

Definition commonPreprocess (state : GraphState) (config : Configurable)
           (module : PromptModule) (customInstr : option jsstring)
  : M Effect (list Message * list Source) :=
  perform (SetStep (js "analyzeQuery")) ;;;
  q <- call (ProcessQuery true) (processQuery env state config true) ;;
  contextUrlSources <- crawlContextUrls config ;;
  queryUrlSources <- call (ExtractAndCrawlUrls (query q) 5 8)
                          (extractAndCrawlUrls env (query q)) ;;
  let urlSources := contextUrlSources ++ queryUrlSources in
  assemble state config module customInstr q urlSources.

(** ** setupAgent *)

Definition setupAgent (u : User) : M Effect (Model * list Tool) :=
  mcpServersResponse <- call ListMcpServers (listMcpServers env u) ;;
  perform NewClient ;;;
  tryCatch
    (call InitializeConnections (initializeConnections env) ;;;
     mcpTools <- call GetTools (getTools env) ;;
     match mcpTools with
     | None | Some [] => throw (newError (js "No tools found"))
     | Some (t :: ts) =>
       model <- call BindTools (bindTools env (t :: ts)) ;;
       ret (model, t :: ts)
     end)
    (fun _ => throw (newError (js "Failed to initialize MCP tools"))).

(** ** The llm/tools workflow *)

Inductive Node := Llm | Tools.

Inductive Target := Goto (n : Node) | END.

(** [graphState.messages[graphState.messages.length - 1]] *)
Definition lastMessage (ms : list Message) : option Message :=
  nth_error ms (List.length ms - 1).

(** The conditional edge after the [llm] node.  Reading [tool_calls]
    of a missing last message is a [TypeError]. *)
Definition routeAfterLlm (ms : list Message) : outcome Target :=
  match lastMessage ms with
  | None =>
    Throw {| name := js "TypeError";
             message := js "Cannot read properties of undefined (reading 'tool_calls')" |}
  | Some aiMessage =>
    match tool_calls aiMessage with
    | Some calls => if (0 <? List.length calls)%nat then Return (Goto Tools) else Return END
    | None => Return END
    end
  end.

(** [llmNode]: the update is the model's response. *)
Definition llmNode (model : Model) (ms : list Message) : M Effect (list Message) :=
  response <- call (ModelInvoke ms) (invokeModel env model ms) ;;
  ret [response].

(** [new ToolNode(mcpTools)] *)
Definition toolNode (tools : list Tool) (ms : list Message) : M Effect (list Message) :=
  call (ToolNodeInvoke ms) (invokeToolNode env tools ms).

(** The state graph built by [agentNode]: two nodes, the entry edge
    [START -> llm], the edge [tools -> llm] and the conditional edge
    after [llm]. *)
Record Workflow := {
  handler : Node -> list Message -> M Effect (list Message);
  entry : Node;
  edge : Node -> list Message -> outcome Target }.

Definition workflow (model : Model) (tools : list Tool) : Workflow :=
  {| handler := fun n => match n with Llm => llmNode model | Tools => toolNode tools end;
     entry := Llm;
     edge := fun n => match n with
                      | Llm => routeAfterLlm
                      | Tools => fun _ => Return (Goto Llm)
                      end |}.

(** [recursionLimit: 100] *)
Definition recursionLimit : nat := 100.

Definition graphRecursionError (limit : nat) : JsError :=
  {| name := js "GraphRecursionError";
     message := js "Recursion limit of " ++ ofZ (Z.of_nat limit)
                   ++ js " reached without hitting a stop condition." |}.

(** Modelled from the spec: the runner of the state-graph library, which
    is not part of the sources.  It is the finite-state machine of the
    design notes: the handler of the current node runs, its update is
    appended to the message history, the edge function picks the next
    node or the terminal state; every node execution is one step, and
    when the step limit is used up before the terminal state is reached
    the run ends with the step-limit error. *)
Fixpoint runFrom (g : Workflow) (limit steps : nat) (n : Node) (ms : list Message)
  : M Effect (list Message) :=
  match steps with
  | O => throw (graphRecursionError limit)
  | S steps' =>
    update <- handler g n ms ;;
    let ms' := ms ++ update in
    target <- (([], edge g n ms') : M Effect Target) ;;
    match target with
    | END => ret ms'
    | Goto n' => runFrom g limit steps' n' ms'
    end
  end.

(** [app.invoke({ messages }, { recursionLimit })] *)
Definition invoke (g : Workflow) (input : list Message) (limit : nat)
  : M Effect (list Message) :=
  runFrom g limit limit (entry g) input.

(** ** agentNode *)

(** [customInstructions] are used only when the project has an id. *)
Definition customInstructionsOf (config : Configurable) : option jsstring :=
  match project config with
  | Some p => if truthy_opt (projectId p) then customInstructions p else None
  | None => None
  end.

(** The sources, truncated, are emitted when there are any. *)
Definition emitSources (sources : list Source) : M Effect unit :=
  if (0 <? List.length sources)%nat
  then perform (EmitLargeData (truncateSource env sources))
  else ret tt.

Definition agentNode (state : GraphState) (config : Configurable)
           (module : PromptModule) : M Effect (list Message) :=
  '(requestMessages, sources) <-
     commonPreprocess state config module (customInstructionsOf config) ;;
  perform (SetStep (js "answerQuestion")) ;;;
  emitSources sources ;;;
  '(model, tools) <- setupAgent (user config) ;;
  tryFinally
    (invoke (workflow model tools) requestMessages recursionLimit)
    (perform ClientClose).

(** ** Reading a trace *)

Definition prepareCalls (t : list Effect) : list PrepareContextArgs :=
  flat_map (fun e => match e with PrepareContext a => [a] | _ => [] end) t.

Definition buildCalls (t : list Effect) : list BuildArgs :=
  flat_map (fun e => match e with BuildFinalRequestMessages a => [a] | _ => [] end) t.

Definition isClose (e : Effect) : bool :=
  match e with ClientClose => true | _ => false end.

Definition isNewClient (e : Effect) : bool :=
  match e with NewClient => true | _ => false end.

Definition isNodeRun (e : Effect) : bool :=
  match e with ModelInvoke _ | ToolNodeInvoke _ => true | _ => false end.

Definition closes (t : list Effect) : nat := List.length (filter isClose t).
Definition clients (t : list Effect) : nat := List.length (filter isNewClient t).
Definition nodeRuns (t : list Effect) : nat := List.length (filter isNodeRun t).

(** ** Collaborators of the tool loop *)

(** A model that requests a tool call on every response. *)
Definition alwaysCallsTools (model : Model) : Prop :=
  forall ms, exists r c cs,
      invokeModel env model ms = Return r /\ tool_calls r = Some (c :: cs).

(** A tool node that answers every request. *)
Definition toolsAnswer (tools : list Tool) : Prop :=
  forall ms, exists u, invokeToolNode env tools ms = Return u.

(** Where the runner goes after a step, with [steps] steps left. *)
Definition continue (model : Model) (tools : list Tool) (steps : nat)
           (ms : list Message) (target : Target) : M Effect (list Message) :=
  match target with
  | Goto n' => runFrom (workflow model tools) recursionLimit steps n' ms
  | END => ret ms
  end.

End Skill.

Arguments Message : clear implicits.
Arguments Env : clear implicits.

End Agent.

(* ================================================================== *)
(** * Matching with the reason of a failure *)
(* ================================================================== *)

(** The stream loop matches the same pattern against longer and longer
    buffers.  To relate the answers, the matcher is instrumented with
    the reason of a failure: [Miss] when a character of the buffer
    refuted the pattern, [Short] when the buffer ended first. *)

Module Verdict.

Inductive verdict :=
| Hit (r : jsstring)
| Miss
| Short.

Definition erase (v : verdict) : option jsstring :=
  match v with Hit r => Some r | Miss | Short => None end.

Definition hits (v : verdict) : bool :=
  match v with Hit _ => true | Miss | Short => false end.

Definition shape (v : verdict) : nat :=
  match v with Hit _ => 0 | Miss => 1 | Short => 2 end.

Fixpoint lazyDotsV (k : jsstring -> capture -> verdict)
         (s : jsstring) (g : capture) : verdict :=
  match k s g with
  | Hit r => Hit r
  | v =>
    match s with
    | [] => Short
    | c :: s' =>
      if isLineTerminator c then v
      else match lazyDotsV k s' (push c g) with
           | Hit r => Hit r
           | Short => Short
           | Miss => v
           end
    end
  end.

Fixpoint matchAtV (p : pattern) (s : jsstring) (g : capture) : verdict :=
  match p with
  | [] => Hit (text g)
  | Chr c :: p' =>
    match s with
    | [] => Short
    | x :: s' => if (x =? c)%N then matchAtV p' s' (push x g) else Miss
    end
  | LazyDots :: p' => lazyDotsV (matchAtV p') s g
  | GroupOpen :: p' => matchAtV p' s {| opened := true; text := [] |}
  | GroupClose :: p' => matchAtV p' s {| opened := false; text := text g |}
  end.

(** The literal characters of a pattern are not line terminators. *)
Definition plainLiterals (p : pattern) : bool :=
  forallb (fun i => match i with Chr c => negb (isLineTerminator c) | _ => true end) p.

Definition sameLine (s : jsstring) : Prop :=
  Forall (fun c => isLineTerminator c = false) s.

End Verdict.

(* ================================================================== *)
(** * Sample runs of the image-generation skill *)
(* ================================================================== *)

Module Samples.
Import ImageGeneration.

(** A clock that does not advance during the run. *)
Definition steadyClock : nat -> Z := fun _ => 0%Z.

(** A clock that is past the time limit from the first loop check on. *)
Definition lateClock : nat -> Z :=
  fun n => match n with O => 0%Z | S _ => 6000000%Z end.

(** An endpoint that answers 200 with the given chunks. *)
Definition streaming (chunks : list jsstring) : Response :=
  {| ok := true; status := 200; errorText := []; body := Some chunks |}.

Definition streamWorld (chunks : list jsstring) (clock : nat -> Z) : World :=
  {| fetch := fun _ => Return (streaming chunks);
     now := clock;
     genImageID := js "img-1" |}.

Definition respondingWorld (response : Response) : World :=
  {| fetch := fun _ => Return response;
     now := steadyClock;
     genImageID := js "img-1" |}.

(** The two markers, cut inside both of them. *)
Definition splitMarkers : list jsstring :=
  [js "![x](htt"; js "ps://host/img.png) gen_"; js "id: `abc"; js "123`"].

Definition markersThenMore : list jsstring :=
  [js "![x](https://host/img.png) gen_id: `abc123`"; js " and"; js " more"].

Definition onlyUrl : list jsstring := [js "![x](https://host/img.png)"].

Definition onlyGenId : list jsstring := [js "gen_id: `abc123`"].

Definition catState : ImageGenerationState :=
  {| st_query := Some (js "a cat"); st_gen_id := None |}.

Definition noPromptState : ImageGenerationState :=
  {| st_query := None; st_gen_id := None |}.

Definition keyConfig : SkillRunnableConfig :=
  {| tplConfig :=
       Some {| tpl_apiUrl := None; tpl_apiKey := Some (js "secret");
               tpl_imageRatio := None; tpl_model := None |} |}.

Definition noKeyConfig : SkillRunnableConfig := {| tplConfig := None |}.

Definition serverError : Response :=
  {| ok := false; status := 500; errorText := js "busy"; body := None |}.

Definition noBody : Response :=
  {| ok := true; status := 200; errorText := []; body := None |}.

End Samples.

(* ================================================================== *)
(** * Sample runs of the agent skill *)
(* ================================================================== *)

Module AgentSamples.
Import Agent.

Definition sourceA : Source :=
  {| src_url := js "https://a.example/"; src_title := js "A"; src_pageContent := js "alpha" |}.
Definition sourceB : Source :=
  {| src_url := js "https://b.example/"; src_title := js "B"; src_pageContent := js "beta" |}.
Definition sourceC : Source :=
  {| src_url := js "https://c.example/"; src_title := js "C"; src_pageContent := js "gamma" |}.
Definition sourceD : Source :=
  {| src_url := js "https://d.example/"; src_title := js "D"; src_pageContent := js "delta" |}.

Definition human (text : jsstring) : Message :=
  {| kind := HumanKind; content := text; tool_calls := None |}.

Definition searchCall : ToolCall :=
  {| tc_name := js "search"; tc_args := js "{}"; tc_id := js "call-1" |}.

(** A model response that asks for a tool. *)
Definition toolRequest : Message :=
  {| kind := AIKind; content := []; tool_calls := Some [searchCall] |}.

(** A model response with zero tool calls. *)
Definition finalAnswer : Message :=
  {| kind := AIKind; content := js "done"; tool_calls := Some [] |}.

Definition toolResult : Message :=
  {| kind := ToolKind; content := js "result"; tool_calls := None |}.

Definition sampleQuery (budget : Z) : @QueryResult unit :=
  {| optimizedQuery := js "what is new";
     query := js "what is new";
     usedChatHistory := [];
     hasContext := false;
     remainingTokens := budget;
     mentionedContext := tt;
     rewrittenQueries := [] |}.

(** Collaborators that all answer: the query processor reports the
    given budget, the crawls find two sources each, the MCP client
    offers the given tools and the model always gives the same reply. *)
Definition sampleEnv (budget : Z) (offered : option (list unit)) (reply : Message)
  : Env unit unit unit unit unit unit unit :=
  {| processQuery := fun _ _ _ => Return (sampleQuery budget);
     isValidUrl := fun _ => true;
     crawlExtractedUrls := fun _ => Return [sourceA; sourceB];
     extractAndCrawlUrls := fun _ => Return [sourceC; sourceD];
     checkModelContextLenSupport := fun _ => true;
     prepareContext :=
       fun args => Return {| contextStr := js "context"; pc_sources := pc_urlSources args |};
     buildFinalRequestMessages := fun args => Return [human (ba_originalQuery args)];
     truncateSource := fun sources => sources;
     listMcpServers := fun _ => Return tt;
     initializeConnections := Return tt;
     getTools := Return offered;
     bindTools := fun _ => Return tt;
     invokeModel := fun _ _ => Return reply;
     invokeToolNode := fun _ _ => Return [toolResult] |}.

Definition sampleState : GraphState :=
  {| messages := []; images := []; gs_query := Some (js "what is new") |}.

Definition sampleConfig : @Configurable unit unit :=
  {| locale := None;
     chatModelInfo := tt;
     project := None;
     runtimeConfig := None;
     urls := Some [ {| url := Some (js "https://a.example/") |};
                    {| url := Some (js "https://b.example/") |} ];
     user := tt |}.

(** The MCP servers offer no tool: [setupAgent] throws after the client
    was created. *)
Definition noToolsEnv : Env unit unit unit unit unit unit unit :=
  sampleEnv 1000 (Some []) finalAnswer.

(** A model that asks for a tool on every response. *)
Definition loopingEnv : Env unit unit unit unit unit unit unit :=
  sampleEnv 1000 (Some [tt]) toolRequest.

(** A query processor that leaves no token budget. *)
Definition brokeEnv : Env unit unit unit unit unit unit unit :=
  sampleEnv 0 (Some [tt]) finalAnswer.

End AgentSamples.

(* ================================================================== *)
(** * Captured text *)
(* ================================================================== *)

Module Capture.

(** The capture state after the code units [l] were consumed. *)
Definition pushAll (l : jsstring) (g : capture) : capture :=
  fold_left (fun g' c => push c g') l g.

End Capture.

(* ================================================================== *)
(** * The configuration schema of the image-generation skill *)
(* ================================================================== *)

Module ImageConfig.
Import ImageGeneration.

Inductive InputMode := InputText | InputSelect.

(** An item of [configSchema.items]: its key, input mode and default
    value, and the values of its options (labels and descriptions are
    display text). *)
Record ConfigItem := {
  ci_key : jsstring;
  ci_inputMode : InputMode;
  ci_defaultValue : jsstring;
  ci_options : list jsstring }.

(** [configSchema] *)
Definition configSchema : list ConfigItem :=
  [ {| ci_key := js "apiUrl"; ci_inputMode := InputText;
       ci_defaultValue := js "https://api.tu-zi.com/v1/chat/completions";
       ci_options := [] |};
    {| ci_key := js "apiKey"; ci_inputMode := InputText;
       ci_defaultValue := [];
       ci_options := [] |};
    {| ci_key := js "imageRatio"; ci_inputMode := InputSelect;
       ci_defaultValue := js "1:1";
       ci_options := [js "1:1"; js "16:9"; js "9:16"] |};
    {| ci_key := js "model"; ci_inputMode := InputSelect;
       ci_defaultValue := js "gpt-4o-image-vip";
       ci_options := [js "gpt-4o-image-vip"; js "gpt-4o-image"] |} ].

(** The default value the schema declares for a key. *)
Definition schemaDefault (key : jsstring) : option jsstring :=
  option_map ci_defaultValue (find (fun i => jseqb (ci_key i) key) configSchema).

(** A [tplConfig] in which every option holds the default value of the
    schema. *)
Definition schemaDefaults : SkillRunnableConfig :=
  {| tplConfig :=
       Some {| tpl_apiUrl := schemaDefault (js "apiUrl");
               tpl_apiKey := schemaDefault (js "apiKey");
               tpl_imageRatio := schemaDefault (js "imageRatio");
               tpl_model := schemaDefault (js "model") |} |}.

(** A configuration without [tplConfig]. *)
Definition noTplConfig : SkillRunnableConfig := {| tplConfig := None |}.

(** The [FetchCall] effects of a run, in order. *)
Definition requestsSent (t : list Effect) : list Request :=
  flat_map (fun e => match e with FetchCall r => [r] | _ => [] end) t.

End ImageConfig.

(* ================================================================== *)
(** * Reading a run of the agent skill *)
(* ================================================================== *)

Module AgentReaders.
Import Agent.

Section Readers.
Context {ModelInfo User MentionedContext PromptModule : Type}.

(** The calls of [crawlExtractedUrls] in a trace: the URLs, the
    concurrency limit and the batch size. *)
Definition crawlCalls (t : list (@Effect ModelInfo MentionedContext PromptModule))
  : list (list jsstring * Z * Z) :=
  flat_map (fun e => match e with
                     | CrawlExtractedUrls l c b => [(l, c, b)]
                     | _ => []
                     end) t.

(** A crawl request as [commonPreprocess] makes them: some URLs, each
    non-empty and accepted by [isValidUrl], with the concurrency limit
    5 and the batch size 8. *)
Definition crawlWellFormed (isValidUrl : jsstring -> bool)
           (call : list jsstring * Z * Z) : Prop :=
  fst (fst call) <> [] /\
  Forall (fun u => truthy u = true /\ isValidUrl u = true) (fst (fst call)) /\
  snd (fst call) = 5%Z /\ snd call = 8%Z.

(** The project has an id and the runtime configuration asks for the
    knowledge base. *)
Definition knowledgeBaseRequested (config : @Configurable ModelInfo User) : Prop :=
  exists p id r,
    project config = Some p /\ projectId p = Some id /\ truthy id = true /\
    runtimeConfig config = Some r /\ enabledKnowledgeBase r = true.

End Readers.

End AgentReaders.

Module AgentMoreSamples.
Import Agent AgentSamples.

(** A configuration without context URLs. *)
Definition noUrlsConfig : @Configurable unit unit :=
  {| locale := None;
     chatModelInfo := tt;
     project := None;
     runtimeConfig := None;
     urls := None;
     user := tt |}.

(** A query processor that throws. *)
Definition failingQueryEnv : Env unit unit unit unit unit unit unit :=
  {| processQuery := fun _ _ _ => Throw (newError (js "query processor failed"));
     isValidUrl := isValidUrl loopingEnv;
     crawlExtractedUrls := crawlExtractedUrls loopingEnv;
     extractAndCrawlUrls := extractAndCrawlUrls loopingEnv;
     checkModelContextLenSupport := checkModelContextLenSupport loopingEnv;
     prepareContext := prepareContext loopingEnv;
     buildFinalRequestMessages := buildFinalRequestMessages loopingEnv;
     truncateSource := truncateSource loopingEnv;
     listMcpServers := listMcpServers loopingEnv;
     initializeConnections := initializeConnections loopingEnv;
     getTools := getTools loopingEnv;
     bindTools := bindTools loopingEnv;
     invokeModel := invokeModel loopingEnv;
     invokeToolNode := invokeToolNode loopingEnv |}.

End AgentMoreSamples.

(* ================================================================== *)
(** * The canvas deletion hook *)
(* ================================================================== *)

Module DeleteCanvas.

Open Scope eff_scope.

(** An entry of the sidebar's canvas list. *)
Record Canvas := { canvas_id : jsstring }.

(** Observable actions of [deleteCanvas]. *)
Inductive Effect :=
| SetIsRemoving (value : bool)
| DeleteCanvasRequest (canvasId : jsstring)
| MessageSuccess (key : jsstring)
| RemoveCurrentCanvasId
| GetCanvasList
| Navigate (path : jsstring).

(** What the hook closes over when [deleteCanvas] is called: the
    [isRemoving] state, the canvas list of the sidebar, the
    [currentCanvasId] entry of the local storage ([None] when there is
    none) and the answer of the API, as the value of [data?.success]
    ([None] when [data] or the field is undefined). *)
Record Env := {
  isRemoving : bool;
  canvasList : option (list Canvas);
  storedCanvasId : option jsstring;
  deleteCanvasApi : jsstring -> outcome (option bool) }.

(** [storedCanvasId === canvasId] *)
Definition isStored (env : Env) (canvasId : jsstring) : bool :=
  match storedCanvasId env with
  | Some stored => jseqb stored canvasId
  | None => false
  end.

(** [canvasList?.find((canvas) => canvas.id !== canvasId)] *)
Definition firstOtherCanvas (env : Env) (canvasId : jsstring) : option Canvas :=
  match canvasList env with
  | Some l => find (fun canvas => negb (jseqb (canvas_id canvas) canvasId)) l
  | None => None
  end.

(** The path navigated to after the current canvas was deleted. *)
Definition nextPath (env : Env) (canvasId : jsstring) : jsstring :=
  match firstOtherCanvas env canvasId with
  | Some firstCanvas =>
    if truthy (canvas_id firstCanvas)
    then js "/canvas/" ++ canvas_id firstCanvas
    else js "/canvas/empty"
  | None => js "/canvas/empty"
  end.

(** [deleteCanvas]; the result is [None] for [undefined]. *)
Definition deleteCanvas (env : Env) (canvasId : jsstring) : M Effect (option bool) :=
  if isRemoving env then ret None else
  tryFinally
    (perform (SetIsRemoving true) ;;;
     success <- call (DeleteCanvasRequest canvasId) (deleteCanvasApi env canvasId) ;;
     match success with
     | Some true =>
       perform (MessageSuccess (js "common.putSuccess")) ;;;
       (if isStored env canvasId then perform RemoveCurrentCanvasId else ret tt) ;;;
       perform GetCanvasList ;;;
       (if isStored env canvasId then perform (Navigate (nextPath env canvasId))
        else ret tt) ;;;
       ret (Some true)
     | _ => ret (Some false)
     end)
    (perform (SetIsRemoving false)).


Definition requests (t : list Effect) : list jsstring :=
  flat_map (fun e => match e with DeleteCanvasRequest c => [c] | _ => [] end) t.

Definition removals (t : list Effect) : nat :=
  List.length (filter (fun e => match e with RemoveCurrentCanvasId => true | _ => false end) t).

Definition successMessages (t : list Effect) : nat :=
  List.length (filter (fun e => match e with MessageSuccess _ => true | _ => false end) t).

End DeleteCanvas.

(* ================================================================== *)
(** * The knowledge-base modal *)
(* ================================================================== *)

Module KnowledgeModal.

Open Scope eff_scope.

Section Modal.

(** The values held by form fields and project properties. *)
Context {Value : Type}.

(** A plain object: its own properties in insertion order, each key
    once. *)
Definition JsObject : Type := list (jsstring * Value).

(** [o[k]] *)
Fixpoint lookup (k : jsstring) (o : JsObject) : option Value :=
  match o with
  | [] => None
  | (k', v) :: o' => if jseqb k' k then Some v else lookup k o'
  end.

(** [o[k] = v]: an existing property keeps its place. *)
Fixpoint assign (k : jsstring) (v : Value) (o : JsObject) : JsObject :=
  match o with
  | [] => [(k, v)]
  | (k', v') :: o' => if jseqb k' k then (k', v) :: o' else (k', v') :: assign k v o'
  end.

(** [{ ...a, ...b }] *)
Definition spread (a b : JsObject) : JsObject :=
  fold_left (fun acc kv => assign (fst kv) (snd kv) acc) b a.

(** [delete o[k]] *)
Definition delete (k : jsstring) (o : JsObject) : JsObject :=
  filter (fun kv => negb (jseqb (fst kv) k)) o.

(** Observable actions of [onOk]. *)
Inductive Effect :=
| Validate
| SetConfirmLoading (value : bool)
| UpdateProject (body : JsObject)
| CreateProject (body : JsObject)
| MessageError (key : jsstring)
| MessageSuccess (key : jsstring)
| SetShowNewKnowledgeModal (value : bool)
| SetReloadKnowledgeBaseList (value : bool).

(** What [onOk] works with: the outcome of [form.validate()], the
    project being edited if any, and the two API calls, each resolving
    to the truthiness of [result?.error]. *)
Record Env := {
  validate : outcome JsObject;
  editProject : option JsObject;
  updateProject : JsObject -> outcome bool;
  createProject : JsObject -> outcome bool }.

(** [`workspace.newKnowledgeModal.${editProject ? a : b}`] *)
Definition modalKey (env : Env) (editing creating : string) : jsstring :=
  js "workspace.newKnowledgeModal."
     ++ (match editProject env with Some _ => js editing | None => js creating end).

(** [reqBody] *)
Definition requestBody (project res : JsObject) : JsObject :=
  delete (js "resources") (spread project res).

(** The handler run when the validation resolved with [res]. *)
Definition submit (env : Env) (res : JsObject) : M Effect unit :=
  perform (SetConfirmLoading true) ;;;
  tryCatch
    (hasError <-
       match editProject env with
       | Some project =>
         call (UpdateProject (requestBody project res))
              (updateProject env (requestBody project res))
       | None => call (CreateProject res) (createProject env res)
       end ;;
     perform (SetConfirmLoading false) ;;;
     if hasError : bool
     then perform (MessageError (modalKey env "editFailed" "failed"))
     else
       perform (SetShowNewKnowledgeModal false) ;;;
       perform (MessageSuccess (modalKey env "editSuccessful" "successful")) ;;;
       perform (SetReloadKnowledgeBaseList true))
    (fun _ =>
       perform (MessageError (modalKey env "editFailed" "failed")) ;;;
       perform (SetConfirmLoading false)).

(** [onOk]: a rejected validation is logged to the console only. *)
Definition onOk (env : Env) : M Effect unit :=
  tryCatch (res <- call Validate (validate env) ;; submit env res)
           (fun _ => ret tt).

(** ** Reading a run *)

Definition loadingChanges (t : list Effect) : list bool :=
  flat_map (fun e => match e with SetConfirmLoading b => [b] | _ => [] end) t.

Definition updateCalls (t : list Effect) : list JsObject :=
  flat_map (fun e => match e with UpdateProject b => [b] | _ => [] end) t.

Definition createCalls (t : list Effect) : list JsObject :=
  flat_map (fun e => match e with CreateProject b => [b] | _ => [] end) t.


Definition successMessages (t : list Effect) : list jsstring :=
  flat_map (fun e => match e with MessageSuccess k => [k] | _ => [] end) t.



(** The outcome of the API call [onOk] makes for the values [res]. *)
Definition apiOutcome (env : Env) (res : JsObject) : outcome bool :=
  match editProject env with
  | Some project => updateProject env (requestBody project res)
  | None => createProject env res
  end.

End Modal.

End KnowledgeModal.

(* ================================================================== *)
(** * Further sample runs *)
(* ================================================================== *)

Module MoreSamples.
Import ImageGeneration.

(** A rejection without a message. *)
Definition silentError : JsError := {| name := js "TypeError"; message := [] |}.

(** A network on which [fetch] rejects. *)
Definition offlineWorld : World :=
  {| fetch := fun _ => Throw silentError;
     now := Samples.steadyClock;
     genImageID := js "img-1" |}.

End MoreSamples.

Module DeleteCanvasSamples.
Import DeleteCanvas.

Definition sidebar : list Canvas :=
  [ {| canvas_id := js "c1" |}; {| canvas_id := js "c2" |} ].

(** No deletion in progress, [c1] is the current canvas, the API
    answers with success. *)
Definition idleEnv : Env :=
  {| isRemoving := false;
     canvasList := Some sidebar;
     storedCanvasId := Some (js "c1");
     deleteCanvasApi := fun _ => Return (Some true) |}.

(** A deletion is in progress. *)
Definition busyEnv : Env :=
  {| isRemoving := true;
     canvasList := Some sidebar;
     storedCanvasId := Some (js "c1");
     deleteCanvasApi := fun _ => Return (Some true) |}.

(** The request is rejected. *)
Definition failingEnv : Env :=
  {| isRemoving := false;
     canvasList := Some sidebar;
     storedCanvasId := Some (js "c1");
     deleteCanvasApi := fun _ => Throw (newError (js "network down")) |}.

End DeleteCanvasSamples.

Module KnowledgeModalSamples.
Import KnowledgeModal.

Definition editedProject : @JsObject jsstring :=
  [ (js "projectId", js "p1"); (js "title", js "old title");
    (js "resources", js "r1,r2") ].

Definition formValues : @JsObject jsstring :=
  [ (js "title", js "new title"); (js "description", js "notes") ].

(** Editing a project, the update succeeds. *)
Definition editEnv : @Env jsstring :=
  {| validate := Return formValues;
     editProject := Some editedProject;
     updateProject := fun _ => Return false;
     createProject := fun _ => Return false |}.

(** The form does not validate. *)
Definition rejectedEnv : @Env jsstring :=
  {| validate := Throw (newError (js "title is required"));
     editProject := None;
     updateProject := fun _ => Return false;
     createProject := fun _ => Return false |}.


End KnowledgeModalSamples.

(* ================================================================== *)
(** * Streams that stall *)
(* ================================================================== *)

Module StreamReading.
Import ImageGeneration.

(** What [reader.read()] does once the chunks of a stream have been
    read: it reports [done], or it never settles. *)
Inductive StreamEnd := Closes | Stalls.

(** Where the [while] loop stands in the end: it has been left, or it
    is still awaiting a [reader.read()] that never settles. *)
Inductive LoopEnd :=
| Exited (st : ReadState)
| Awaiting (st : ReadState).

(** The loop of [readLoop] on a stream with either end.  The time is
    looked at in the loop condition only, so nothing happens while a
    read is pending. *)
Fixpoint readLoopOn (clock : nat -> Z) (startTime : Z) (chunks : list jsstring)
         (ending : StreamEnd) (st : ReadState) : LoopEnd :=
  if (clock (ticks st) - startTime <? timeout)%Z then
    match chunks with
    | [] =>
      match ending with
      | Closes => Exited (countRead (tick st))
      | Stalls => Awaiting (countRead (tick st))
      end
    | chunk :: rest =>
      let st' := absorb (countRead (tick st)) chunk in
      if truthy (imageUrl st') && truthy (genId st') then Exited st'
      else readLoopOn clock startTime rest ending st'
    end
  else Exited (tick st).

Definition readStreamOn (clock : nat -> Z) (chunks : list jsstring)
           (ending : StreamEnd) : LoopEnd :=
  readLoopOn clock (clock 0) chunks ending initialRead.


End StreamReading.

Module StreamSamples.
Import ImageGeneration.

(** A clock that stands still until the first read has been started and
    is far past the time limit at every later call. *)
Definition stallClock : nat -> Z :=
  fun n => match n with O | 1 => 0%Z | _ => 7000000%Z end.

(** A response that holds the two markers behind an earlier image and
    an earlier generation id. *)
Definition decoyText : jsstring :=
  js "![a](https://evil/x.png) gen_id: `zzz` ![x](https://host/img.png) gen_id: `abc123`".

End StreamSamples.

(* ================================================================== *)
(** * The two patterns on a sample response *)
(* ================================================================== *)

Example urlRe_sample :
exec urlRe (js "text ![x](https://host/img.png) gen_id: `abc123`")
= Some (js "https://host/img.png").
Proof. vm_compute. reflexivity. Qed.

Example genIdRe_sample :
exec genIdRe (js "text ![x](https://host/img.png) gen_id: `abc123`")
= Some (js "abc123").
Proof. vm_compute. reflexivity. Qed.

Example decode_cjk : js "图像" = [22270%N; 20687%N].
Proof. vm_compute. reflexivity. Qed.

(** The leftmost marker wins, and the lazy wildcard stops at the first
    closing parenthesis. *)
Example urlRe_first_marker :
  exec urlRe (js "![a](https://x) ![b](https://y)") = Some (js "https://x").
Proof. vm_compute. reflexivity. Qed.

(** A marker whose closing parenthesis has not arrived does not match. *)
Example urlRe_incomplete : exec urlRe (js "![x](https://host/img.png") = None.
Proof. vm_compute. reflexivity. Qed.

(** The wildcard does not cross a line break. *)
Example urlRe_line_break :
  exec urlRe (js "![a" ++ [10%N] ++ js "](https://x)") = None.
Proof. vm_compute. reflexivity. Qed.

(** An empty generation id matches with an empty, falsy group. *)
Example genIdRe_empty_group :
  exec genIdRe (js "gen_id: `` gen_id: `abc`") = Some [].
Proof. vm_compute. reflexivity. Qed.

(* ================================================================== *)
(** * Matching on a growing buffer *)
(* ================================================================== *)

Module Growth.
Import Verdict.

Lemma lazyDots_erase k kv :
  (forall s g, k s g = erase (kv s g)) ->
  forall s g, lazyDots k s g = erase (lazyDotsV kv s g).
Proof.
  intros Hk s. induction s as [|c s IH]; intros g; simpl; rewrite Hk.
  - destruct (kv [] g); reflexivity.
  - destruct (kv (c :: s) g) eqn:E; simpl; try reflexivity;
      destruct (isLineTerminator c); try reflexivity;
      rewrite IH; destruct (lazyDotsV kv s (push c g)); reflexivity.
Qed.

Lemma matchAt_erase p : forall s g, matchAt p s g = erase (matchAtV p s g).
Proof.
  induction p as [|i p IH]; intros s g; simpl; [reflexivity|].
  destruct i; auto.
  - destruct s as [|x s]; [reflexivity|].
    destruct (x =? c)%N; auto.
  - apply lazyDots_erase, IH.
Qed.

Lemma matchAt_hit p s g r : matchAt p s g = Some r <-> matchAtV p s g = Hit r.
Proof.
  rewrite matchAt_erase. destruct (matchAtV p s g); simpl; split; congruence.
Qed.

(** ** The verdict's shape does not depend on the capture state *)

Lemma lazyDotsV_shape kv :
  (forall s g g', shape (kv s g) = shape (kv s g')) ->
  forall s g g', shape (lazyDotsV kv s g) = shape (lazyDotsV kv s g').
Proof.
  intros Hk s. induction s as [|c s IH]; intros g g'; simpl.
  - specialize (Hk [] g g').
    destruct (kv [] g), (kv [] g'); simpl in *; congruence.
  - specialize (Hk (c :: s) g g'). specialize (IH (push c g) (push c g')).
    destruct (kv (c :: s) g), (kv (c :: s) g'); simpl in *; try congruence;
      destruct (isLineTerminator c); simpl; try reflexivity;
      destruct (lazyDotsV kv s (push c g)), (lazyDotsV kv s (push c g'));
      simpl in *; congruence.
Qed.

Lemma matchAtV_shape p :
  forall s g g', shape (matchAtV p s g) = shape (matchAtV p s g').
Proof.
  induction p as [|i p IH]; intros s g g'; simpl; [reflexivity|].
  destruct i; auto.
  - destruct s as [|x s]; [reflexivity|].
    destruct (x =? c)%N; auto.
  - apply lazyDotsV_shape, IH.
Qed.

Lemma hits_shape v : hits v = true <-> shape v = 0.
Proof. destruct v; simpl; split; congruence. Qed.

Lemma matchAtV_hits p s g g' : hits (matchAtV p s g) = hits (matchAtV p s g').
Proof.
  pose proof (matchAtV_shape p s g g') as H.
  destruct (matchAtV p s g), (matchAtV p s g'); simpl in *; congruence.
Qed.

(** ** A refuted match stays refuted on a longer buffer *)

Lemma lazyDotsV_miss kv x :
  (forall s g, kv s g = Miss -> kv (s ++ x) g = Miss) ->
  forall s g, lazyDotsV kv s g = Miss -> lazyDotsV kv (s ++ x) g = Miss.
Proof.
  intros Hk s. induction s as [|c s IH]; intros g; simpl.
  - destruct (kv [] g); discriminate.
  - destruct (kv (c :: s) g) eqn:E; try discriminate.
    + intros H. change (c :: s ++ x) with ((c :: s) ++ x). rewrite (Hk _ _ E).
      destruct (isLineTerminator c); [reflexivity|].
      destruct (lazyDotsV kv s (push c g)) eqn:E'; try discriminate.
      rewrite (IH _ E'). reflexivity.
    + destruct (isLineTerminator c); [discriminate|].
      destruct (lazyDotsV kv s (push c g)); discriminate.
Qed.

Lemma matchAtV_miss p x :
  forall s g, matchAtV p s g = Miss -> matchAtV p (s ++ x) g = Miss.
Proof.
  induction p as [|i p IH]; intros s g; simpl; [discriminate|].
  destruct i; auto.
  - destruct s as [|y s]; [discriminate|]. simpl.
    destruct (y =? c)%N; auto.
  - apply lazyDotsV_miss, IH.
Qed.

(** ** A match that ran out of buffer saw no line terminator *)

Lemma lazyDotsV_short_sameLine kv :
  (forall s g, kv s g = Short -> sameLine s) ->
  forall s g, lazyDotsV kv s g = Short -> sameLine s.
Proof.
  intros Hk s. induction s as [|c s IH]; intros g; simpl.
  - intros _. constructor.
  - destruct (kv (c :: s) g) eqn:E; try discriminate.
    + destruct (isLineTerminator c) eqn:L; [discriminate|].
      destruct (lazyDotsV kv s (push c g)) eqn:E'; try discriminate.
      intros _. constructor; [exact L | exact (IH _ E')].
    + intros _. exact (Hk _ _ E).
Qed.

Lemma matchAtV_short_sameLine p :
  plainLiterals p = true ->
  forall s g, matchAtV p s g = Short -> sameLine s.
Proof.
  induction p as [|i p IH]; simpl; intros Hp s g; [discriminate|].
  apply andb_prop in Hp. destruct Hp as [Hi Hp]. specialize (IH Hp).
  destruct i; eauto.
  - destruct s as [|y s]; [constructor|].
    destruct (y =? c)%N eqn:E; [|discriminate].
    apply N.eqb_eq in E. subst y. intros H.
    constructor; [now apply negb_true_iff in Hi | exact (IH _ _ H)].
  - apply lazyDotsV_short_sameLine. exact IH.
Qed.

(** ** Where a lazy wildcard can and cannot succeed *)

Lemma lazyDotsV_hit_inv kv :
  forall s g r, lazyDotsV kv s g = Hit r ->
  exists j g', kv (skipn j s) g' = Hit r.
Proof.
  intros s. induction s as [|c s IH]; intros g r; simpl.
  - destruct (kv [] g) eqn:E; try discriminate.
    intros H. exists 0, g. simpl. congruence.
  - destruct (kv (c :: s) g) eqn:E.
    + intros H. exists 0, g. simpl. congruence.
    + destruct (isLineTerminator c); [discriminate|].
      destruct (lazyDotsV kv s (push c g)) eqn:E'; try discriminate.
      intros H. destruct (IH _ _ E') as (j & g' & Hj).
      exists (S j), g'. simpl. congruence.
    + destruct (isLineTerminator c); [discriminate|].
      destruct (lazyDotsV kv s (push c g)) eqn:E'; try discriminate.
      intros H. destruct (IH _ _ E') as (j & g' & Hj).
      exists (S j), g'. simpl. congruence.
Qed.

Lemma lazyDotsV_nohit kv :
  (forall s g g', hits (kv s g) = hits (kv s g')) ->
  forall s g, sameLine s -> hits (lazyDotsV kv s g) = false ->
  forall j g', hits (kv (skipn j s) g') = false.
Proof.
  intros Hk s. induction s as [|c s IH]; intros g Hs; simpl.
  - intros H j g'. rewrite skipn_nil.
    rewrite (Hk [] g' g). destruct (kv [] g); [discriminate | reflexivity..].
  - inversion Hs as [|? ? Hc Hs']; subst. rewrite Hc.
    intros H [|j] g'; simpl.
    + rewrite (Hk _ g' g). destruct (kv (c :: s) g); [discriminate | reflexivity..].
    + apply (IH (push c g) Hs').
      destruct (kv (c :: s) g); [discriminate|..];
        destruct (lazyDotsV kv s (push c g)); simpl in *; congruence.
Qed.

(** ** A match cut short excludes a match further right on the buffer *)

Lemma skipn_cons_inv (A : Type) (j : nat) (s t : list A) (y : A) :
  skipn j s = y :: t -> t = skipn (S j) s.
Proof.
  revert s. induction j as [|j IH]; intros [|x s]; simpl; try discriminate.
  - congruence.
  - intros H. rewrite (IH _ H). destruct s; reflexivity.
Qed.

Lemma matchAtV_short_blocks p :
  plainLiterals p = true ->
  forall s g, matchAtV p s g = Short ->
  forall j g', hits (matchAtV p (skipn j s) g') = false.
Proof.
  induction p as [|i p IH]; simpl; intros Hp s g; [discriminate|].
  apply andb_prop in Hp. destruct Hp as [Hi Hp]. specialize (IH Hp).
  destruct i.
  - destruct s as [|y s].
    + intros _ j g'. rewrite skipn_nil. reflexivity.
    + destruct (y =? c)%N eqn:E; [|discriminate].
      intros H [|j] g'.
      * simpl. rewrite E. rewrite (matchAtV_hits p s _ (push y g)), H. reflexivity.
      * simpl. destruct (skipn j s) as [|z t] eqn:Et; [reflexivity|].
        destruct (z =? c)%N; [|reflexivity].
        rewrite (skipn_cons_inv _ _ _ _ _ Et). apply (IH _ _ H).
  - intros H j g'.
    pose proof (lazyDotsV_short_sameLine (matchAtV p)
                  (matchAtV_short_sameLine p Hp) _ _ H) as Hs.
    assert (Hn : hits (lazyDotsV (matchAtV p) s g) = false) by (rewrite H; reflexivity).
    pose proof (lazyDotsV_nohit (matchAtV p) (matchAtV_hits p) _ _ Hs Hn) as Hall.
    destruct (lazyDotsV (matchAtV p) (skipn j s) g') eqn:E; try reflexivity.
    apply lazyDotsV_hit_inv in E. destruct E as (i & g'' & Hi').
    rewrite skipn_skipn in Hi'. specialize (Hall (i + j) g'').
    rewrite Hi' in Hall. discriminate.
  - intros H j g'. exact (IH _ _ H j _).
  - intros H j g'. exact (IH _ _ H j _).
Qed.

(** ** A match found on a buffer is found again on every longer buffer *)

Lemma lazyDotsV_hit_grows kv x :
  (forall s g r, kv s g = Hit r -> kv (s ++ x) g = Hit r) ->
  (forall s g, kv s g = Miss -> kv (s ++ x) g = Miss) ->
  (forall s g, kv s g = Short -> forall j g', hits (kv (skipn j s) g') = false) ->
  forall s g r, lazyDotsV kv s g = Hit r -> lazyDotsV kv (s ++ x) g = Hit r.
Proof.
  intros Hhit Hmiss Hshort s. induction s as [|c s IH]; intros g r.
  - simpl. destruct (kv [] g) eqn:E; try discriminate.
    intros H. pose proof (Hhit _ _ _ E) as E'. simpl in E'.
    destruct x; simpl; rewrite E'; exact H.
  - simpl. destruct (kv (c :: s) g) eqn:E.
    + intros H. change (c :: s ++ x) with ((c :: s) ++ x).
      rewrite (Hhit _ _ _ E). exact H.
    + destruct (isLineTerminator c); [discriminate|].
      destruct (lazyDotsV kv s (push c g)) eqn:E'; try discriminate.
      intros H. change (c :: s ++ x) with ((c :: s) ++ x).
      rewrite (Hmiss _ _ E). rewrite (IH _ _ E'). exact H.
    + destruct (isLineTerminator c); [discriminate|].
      destruct (lazyDotsV kv s (push c g)) eqn:E'; try discriminate.
      intros _. exfalso.
      apply lazyDotsV_hit_inv in E'. destruct E' as (j & g' & Hj).
      pose proof (Hshort _ _ E (S j) g') as Hn. simpl in Hn.
      rewrite Hj in Hn. discriminate.
Qed.

Lemma matchAtV_hit_grows p x :
  plainLiterals p = true ->
  forall s g r, matchAtV p s g = Hit r -> matchAtV p (s ++ x) g = Hit r.
Proof.
  induction p as [|i p IH]; simpl; intros Hp s g r; [auto|].
  apply andb_prop in Hp. destruct Hp as [Hi Hp]. specialize (IH Hp).
  destruct i; auto.
  - destruct s as [|y s]; [discriminate|]. simpl.
    destruct (y =? c)%N; [auto | discriminate].
  - apply lazyDotsV_hit_grows.
    + exact IH.
    + apply matchAtV_miss.
    + apply matchAtV_short_blocks. exact Hp.
Qed.

Lemma exec_head p s r : matchAt p s noCapture = Some r -> exec p s = Some r.
Proof. intros H. destruct s; simpl; rewrite H; reflexivity. Qed.

Lemma exec_inv p :
  forall s r, exec p s = Some r ->
  exists j, matchAt p (skipn j s) noCapture = Some r.
Proof.
  intros s. induction s as [|c s IH]; intros r; simpl.
  - destruct (matchAt p [] noCapture) eqn:E; [|discriminate].
    intros H. exists 0. simpl. congruence.
  - destruct (matchAt p (c :: s) noCapture) eqn:E.
    + intros H. exists 0. simpl. congruence.
    + intros H. destruct (IH _ H) as (j & Hj). exists (S j). exact Hj.
Qed.

(** The leftmost match of a pattern with plain literals is stable under
    extension of the buffer. *)
Lemma exec_grows p x :
  plainLiterals p = true ->
  forall s r, exec p s = Some r -> exec p (s ++ x) = Some r.
Proof.
  intros Hp s. induction s as [|c s IH]; intros r.
  - simpl. destruct (matchAt p [] noCapture) eqn:E; [|discriminate].
    intros H. apply exec_head. apply matchAt_hit.
    apply matchAt_hit in E. apply (matchAtV_hit_grows p x Hp) in E.
    simpl in E. congruence.
  - simpl. destruct (matchAt p (c :: s) noCapture) eqn:E.
    + intros H. apply matchAt_hit in E.
      apply (matchAtV_hit_grows p x Hp) in E. apply matchAt_hit in E.
      simpl in E. rewrite E. exact H.
    + intros H. rewrite matchAt_erase in E.
      destruct (matchAtV p (c :: s) noCapture) eqn:EV; try discriminate.
      * pose proof (matchAtV_miss p x _ _ EV) as EM. simpl in EM.
        rewrite matchAt_erase, EM. simpl. apply IH. exact H.
      * exfalso. apply exec_inv in H. destruct H as (j & Hj).
        apply matchAt_hit in Hj.
        pose proof (matchAtV_short_blocks p Hp _ _ EV (S j) noCapture) as Hn.
        simpl in Hn. rewrite Hj in Hn. discriminate.
Qed.

Lemma group1_grows p x s :
  plainLiterals p = true -> truthy (group1 p s) = true ->
  group1 p (s ++ x) = group1 p s.
Proof.
  unfold group1. intros Hp. destruct (exec p s) eqn:E; [|discriminate].
  intros _. rewrite (exec_grows p x Hp _ _ E). reflexivity.
Qed.

End Growth.

(* ================================================================== *)
(** * Properties of the stream parser *)
(* ================================================================== *)

Module StreamFacts.
Import Verdict Growth ImageGeneration.

Lemma urlRe_plain : plainLiterals urlRe = true.
Proof. vm_compute. reflexivity. Qed.

Lemma genIdRe_plain : plainLiterals genIdRe = true.
Proof. vm_compute. reflexivity. Qed.

Lemma keep_or_take p (cur full : jsstring) (chunk : jsstring) :
  plainLiterals p = true ->
  cur = group1 p full ->
  (if truthy_opt (exec p (full ++ chunk)) && negb (truthy cur)
   then nullish (exec p (full ++ chunk)) [] else cur)
  = group1 p (full ++ chunk).
Proof.
  intros Hp Hcur. destruct (truthy cur) eqn:T.
  - rewrite andb_false_r. rewrite Hcur in T |- *.
    symmetry. apply group1_grows; assumption.
  - rewrite andb_true_r. unfold group1.
    destruct (exec p (full ++ chunk)) as [r|] eqn:E; simpl.
    + destruct r; simpl; [|reflexivity]. destruct cur; [reflexivity | discriminate].
    + destruct cur; [reflexivity | discriminate].
Qed.

Lemma absorb_tracked st chunk : tracked st -> tracked (absorb st chunk).
Proof.
  intros [Hu Hg]. unfold tracked, absorb; simpl. split.
  - apply keep_or_take; [apply urlRe_plain | exact Hu].
  - apply keep_or_take; [apply genIdRe_plain | exact Hg].
Qed.

Lemma initialRead_tracked : tracked initialRead.
Proof. split; vm_compute; reflexivity. Qed.

(** Within the time limit the loop ends with what the patterns find in
    the whole text, however the text is cut into chunks. *)
Lemma readLoop_whole clock startTime :
  (forall n, (clock n - startTime < timeout)%Z) ->
  forall chunks st, tracked st ->
  imageUrl (readLoop clock startTime chunks st)
    = group1 urlRe (fullResponse st ++ List.concat chunks) /\
  genId (readLoop clock startTime chunks st)
    = group1 genIdRe (fullResponse st ++ List.concat chunks).
Proof.
  intros Hclock chunks. induction chunks as [|chunk rest IH]; intros st Hst.
  - simpl. pose proof (Hclock (ticks st)) as Ht.
    apply Z.ltb_lt in Ht. rewrite Ht. simpl. rewrite app_nil_r. exact Hst.
  - cbn [readLoop]. pose proof (Hclock (ticks st)) as Ht.
    apply Z.ltb_lt in Ht. rewrite Ht.
    set (rd := countRead (tick st)).
    assert (Hrd : tracked rd) by exact Hst.
    pose proof (absorb_tracked rd chunk Hrd) as Hab.
    assert (Hfull : fullResponse (absorb rd chunk) = fullResponse st ++ chunk)
      by reflexivity.
    destruct (truthy (imageUrl (absorb rd chunk)) && truthy (genId (absorb rd chunk)))
             eqn:Both.
    + apply andb_prop in Both. destruct Both as [Bu Bg].
      destruct Hab as [Hu Hg]. rewrite Hfull in Hu, Hg.
      simpl List.concat. rewrite app_assoc. split.
      * rewrite Hu in Bu |- *. symmetry. apply group1_grows; [apply urlRe_plain | exact Bu].
      * rewrite Hg in Bg |- *. symmetry. apply group1_grows; [apply genIdRe_plain | exact Bg].
    + destruct (IH _ Hab) as [Hu Hg]. rewrite Hfull in Hu, Hg.
      simpl List.concat. rewrite app_assoc. split; assumption.
Qed.

Lemma readStream_whole w chunks :
  (forall n, (now w n - now w 0 < timeout)%Z) ->
  imageUrl (readStream w chunks) = group1 urlRe (List.concat chunks) /\
  genId (readStream w chunks) = group1 genIdRe (List.concat chunks).
Proof.
  intros Hclock.
  exact (readLoop_whole (now w) (now w 0) Hclock chunks initialRead initialRead_tracked).
Qed.

(** C6 (amended).  Image-generation stream parser: for a streamed text in
    which the patterns find the markers [![x](https://host/img.png)] and
    [gen_id: `abc123`], every chunking of the text, read within the time
    limit, makes the loop extract exactly the URL
    [https://host/img.png] and the generation id [abc123]: the result
    does not depend on where the chunk boundaries fall. *)
Theorem stream_parser_chunk_independent :
  forall (w : World) (text : jsstring) (chunks : list jsstring),
    List.concat chunks = text ->
    (forall n, (now w n - now w 0 < timeout)%Z) ->
    exec urlRe text = Some (js "https://host/img.png") ->
    exec genIdRe text = Some (js "abc123") ->
    imageUrl (readStream w chunks) = js "https://host/img.png" /\
    genId (readStream w chunks) = js "abc123".
Proof.
  intros w text chunks Hcat Hclock Hu Hg.
  destruct (readStream_whole w chunks Hclock) as [Eu Eg].
  rewrite Eu, Eg, Hcat. unfold group1. rewrite Hu, Hg. split; reflexivity.
Qed.

(** ** Texts that contain the two markers *)

Lemma exec_step p c s :
  matchAt p (c :: s) noCapture = None -> exec p (c :: s) = exec p s.
Proof. intros H. simpl. rewrite H. reflexivity. Qed.

Lemma exec_lacks p' c pre s :
  lacks c pre = true -> exec (Chr c :: p') (pre ++ s) = exec (Chr c :: p') s.
Proof.
  induction pre as [|x pre IH]; simpl; intros H; [reflexivity|].
  apply andb_prop in H. destruct H as [Hx Hpre].
  apply negb_true_iff in Hx. rewrite Hx. apply IH. exact Hpre.
Qed.

Lemma urlRe_head : exists p', urlRe = Chr 33%N :: p'.
Proof. eexists. vm_compute. reflexivity. Qed.

Lemma genIdRe_head : exists p', genIdRe = Chr 103%N :: p'.
Proof. eexists. vm_compute. reflexivity. Qed.

Lemma urlMarker_found pre rest :
  lacks 33%N pre = true ->
  exec urlRe (pre ++ urlMarker ++ rest) = Some (js "https://host/img.png").
Proof.
  intros H. destruct urlRe_head as [p' Hp]. rewrite Hp.
  rewrite (exec_lacks p' 33%N pre _ H). rewrite <- Hp.
  vm_compute. reflexivity.
Qed.

Lemma genIdMarker_found pre mid rest :
  lacks 103%N pre = true ->
  lacks 103%N mid = true ->
  exec genIdRe (pre ++ urlMarker ++ mid ++ genIdMarker ++ rest) = Some (js "abc123").
Proof.
  intros Hpre Hmid. destruct genIdRe_head as [p' Hp]. rewrite Hp.
  rewrite (exec_lacks p' 103%N pre _ Hpre).
  assert (Hskip : forall s, exec (Chr 103%N :: p') (urlMarker ++ s)
                            = exec (Chr 103%N :: p') s).
  { intros s. rewrite <- Hp.
    let t := eval vm_compute in (urlMarker ++ s) in change (urlMarker ++ s) with t.
    repeat (rewrite exec_step by reflexivity). reflexivity. }
  rewrite Hskip. rewrite (exec_lacks p' 103%N mid _ Hmid). rewrite <- Hp.
  vm_compute. reflexivity.
Qed.

(** A text of the form [pre ![x](https://host/img.png) mid gen_id: `abc123` post],
    where [pre] has no [!] and neither [pre] nor [mid] has a [g], yields
    the pair for every chunking read within the time limit. *)
Corollary marked_text_extracted w pre mid post chunks :
  lacks 33%N pre = true ->
  lacks 103%N pre = true ->
  lacks 103%N mid = true ->
  List.concat chunks = pre ++ urlMarker ++ mid ++ genIdMarker ++ post ->
  (forall n, (now w n - now w 0 < timeout)%Z) ->
  imageUrl (readStream w chunks) = js "https://host/img.png" /\
  genId (readStream w chunks) = js "abc123".
Proof.
  intros Hbang Hpre Hmid Hcat Hclock.
  destruct (readStream_whole w chunks Hclock) as [Eu Eg].
  rewrite Eu, Eg, Hcat. unfold group1.
  rewrite (urlMarker_found pre _ Hbang), (genIdMarker_found pre mid post Hpre Hmid).
  split; reflexivity.
Qed.

End StreamFacts.

(* ================================================================== *)
(** * Properties of generateImage *)
(* ================================================================== *)

Module ImageFacts.
Import Verdict Growth ImageGeneration StreamFacts.

Lemma generateImage_no_prompt w state config :
  truthy (promptOf state) = false ->
  generateImage w state config = ([], Throw (newError msgPromptRequired)).
Proof. intros H. unfold generateImage. rewrite H. reflexivity. Qed.

Lemma generateImage_no_key w state config :
  truthy (promptOf state) = true ->
  truthy (apiKeyOf config) = false ->
  generateImage w state config = ([], Throw (newError msgApiKeyRequired)).
Proof. intros H K. unfold generateImage. rewrite H, K. reflexivity. Qed.

Lemma generateImage_fetch_throws w state config e :
  truthy (promptOf state) = true ->
  truthy (apiKeyOf config) = true ->
  fetch w (requestFor state config) = Throw e ->
  generateImage w state config
  = (prelude state config ++ trace (handleError e), result (handleError e)).
Proof.
  intros H K F. unfold generateImage. rewrite H, K. cbn [negb].
  unfold requestImage, requestFor in *.
  unfold bind, perform, call, tryCatch. cbn [fst snd app]. rewrite F.
  reflexivity.
Qed.

Lemma generateImage_run w state config response :
  truthy (promptOf state) = true ->
  truthy (apiKeyOf config) = true ->
  fetch w (requestFor state config) = Return response ->
  generateImage w state config
  = (prelude state config
       ++ trace (tryCatch (processResponse w (promptOf state) (modelOf config)
                                           (ratioOf config) response) handleError),
     result (tryCatch (processResponse w (promptOf state) (modelOf config)
                                       (ratioOf config) response) handleError)).
Proof.
  intros H K F. unfold generateImage. rewrite H, K. cbn [negb].
  unfold requestImage, requestFor in *.
  unfold bind at 1 2 3 4. unfold perform, call. cbn [fst snd app]. rewrite F.
  cbn [fst snd app].
  unfold tryCatch, trace, result. cbn [fst snd app].
  destruct (processResponse w (promptOf state) (modelOf config) (ratioOf config) response)
    as [t [a|e]]; cbn [fst snd app]; reflexivity.
Qed.

(** What the [catch] block does with an error whose message is not empty. *)
Lemma handleError_message e :
  truthy (message e) = true ->
  handleError e
  = ([EmitEvent (EvError (message e))],
     Return [SystemMessage (js "图像生成错误: " ++ message e)]).
Proof.
  intros H. unfold handleError, or_else. rewrite H. reflexivity.
Qed.

Lemma msgHttpFailure_truthy s t : truthy (msgHttpFailure s t) = true.
Proof. reflexivity. Qed.

Lemma caught_reported state config t msg :
  truthy msg = true ->
  errorEvents t = [] ->
  reported (prelude state config ++ t ++ trace (handleError (newError msg)),
            result (handleError (newError msg))) msg.
Proof.
  intros Hm Ht. rewrite (handleError_message (newError msg) Hm).
  unfold reported, trace, result, errorEvents in *. cbn [fst snd message newError].
  split; [|reflexivity].
  rewrite !flat_map_app, Ht. reflexivity.
Qed.

Lemma generateImage_http_failure w state config response :
  truthy (promptOf state) = true ->
  truthy (apiKeyOf config) = true ->
  fetch w (requestFor state config) = Return response ->
  ok response = false ->
  reported (generateImage w state config)
           (msgHttpFailure (status response) (errorText response)).
Proof.
  intros H K F O. rewrite (generateImage_run w state config response H K F).
  unfold processResponse. rewrite O. cbn [negb].
  unfold tryCatch, throw, trace at 1, result at 1. cbn [fst snd].
  apply (caught_reported state config []); reflexivity.
Qed.

Lemma generateImage_no_stream w state config response :
  truthy (promptOf state) = true ->
  truthy (apiKeyOf config) = true ->
  fetch w (requestFor state config) = Return response ->
  ok response = true ->
  body response = None ->
  reported (generateImage w state config) msgNoStream.
Proof.
  intros H K F O B. rewrite (generateImage_run w state config response H K F).
  unfold processResponse. rewrite O, B. cbn [negb].
  unfold tryCatch, throw, trace at 1, result at 1. cbn [fst snd].
  apply (caught_reported state config []); reflexivity.
Qed.

Lemma generateImage_no_url w state config response chunks :
  truthy (promptOf state) = true ->
  truthy (apiKeyOf config) = true ->
  fetch w (requestFor state config) = Return response ->
  ok response = true ->
  body response = Some chunks ->
  truthy (imageUrl (readStream w chunks)) = false ->
  reported (generateImage w state config) msgNoUrl.
Proof.
  intros H K F O B U. rewrite (generateImage_run w state config response H K F).
  unfold processResponse. rewrite O, B. cbn [negb]. rewrite U. cbn [negb].
  unfold tryCatch, throw, trace at 1, result at 1. cbn [fst snd].
  apply (caught_reported state config []); reflexivity.
Qed.

(** A run that extracted a URL. *)
Lemma generateImage_success w state config response chunks :
  truthy (promptOf state) = true ->
  truthy (apiKeyOf config) = true ->
  fetch w (requestFor state config) = Return response ->
  ok response = true ->
  body response = Some chunks ->
  truthy (imageUrl (readStream w chunks)) = true ->
  generateImage w state config
  = (prelude state config
       ++ [ EmitEvent (EvArtifact (imageArtifact w (promptOf state) (modelOf config)
                                                 (ratioOf config) (readStream w chunks)));
            EmitEvent (EvCreateNode (imageNode w (promptOf state) (modelOf config)
                                               (ratioOf config) (readStream w chunks))) ],
     Return [imageMessage (promptOf state) (readStream w chunks)]).
Proof.
  intros H K F O B U. rewrite (generateImage_run w state config response H K F).
  unfold processResponse. rewrite O, B. cbn [negb]. rewrite U. cbn [negb].
  reflexivity.
Qed.

End ImageFacts.

Module ImageClaims.
Import Verdict Growth ImageGeneration StreamFacts ImageFacts Samples StreamSamples.

Lemma stream_parser_chunk_independent_witness :
  imageUrl (readStream (streamWorld splitMarkers steadyClock) splitMarkers)
    = js "https://host/img.png" /\
  genId (readStream (streamWorld splitMarkers steadyClock) splitMarkers)
    = js "abc123".
Proof.
  apply (stream_parser_chunk_independent
           (streamWorld splitMarkers steadyClock)
           (List.concat splitMarkers) splitMarkers).
  - reflexivity.
  - intros n. reflexivity.
  - vm_compute. reflexivity.
  - vm_compute. reflexivity.
Defined.

(** A response can hold the two markers and still yield another pair:
    with an image marker and a generation id in front of them, the
    patterns find those first. *)
Lemma earlier_markers_are_extracted :
  (exists pre mid post,
      decoyText = pre ++ urlMarker ++ mid ++ genIdMarker ++ post) /\
  imageUrl (readStream (streamWorld [decoyText] steadyClock) [decoyText])
    = js "https://evil/x.png" /\
  genId (readStream (streamWorld [decoyText] steadyClock) [decoyText])
    = js "zzz".
Proof.
  split; [|split].
  - exists (js "![a](https://evil/x.png) gen_id: `zzz` "), (js " "), [].
    vm_compute. reflexivity.
  - vm_compute. reflexivity.
  - vm_compute. reflexivity.
Qed.

(** ** Failures *)

Lemma fetches_app t1 t2 : fetches (t1 ++ t2) = fetches t1 + fetches t2.
Proof. unfold fetches. rewrite filter_app, length_app. reflexivity. Qed.

Lemma processResponse_fetches w query model ratio response :
  fetches (trace (tryCatch (processResponse w query model ratio response) handleError)) = 0.
Proof.
  unfold processResponse.
  destruct (ok response); cbn [negb]; [|reflexivity].
  destruct (body response) as [chunks|]; [|reflexivity].
  destruct (truthy (imageUrl (readStream w chunks))); reflexivity.
Qed.

Lemma generateImage_fetches w state config :
  fetches (trace (generateImage w state config)) <= 1.
Proof.
  destruct (truthy (promptOf state)) eqn:H.
  2:{ rewrite generateImage_no_prompt by exact H. auto. }
  destruct (truthy (apiKeyOf config)) eqn:K.
  2:{ rewrite generateImage_no_key by assumption. auto. }
  destruct (fetch w (requestFor state config)) as [response|e] eqn:F.
  - rewrite (generateImage_run w state config response H K F).
    unfold trace at 1. cbn [fst]. rewrite fetches_app, processResponse_fetches.
    reflexivity.
  - rewrite (generateImage_fetch_throws w state config e H K F).
    unfold trace at 1. cbn [fst]. rewrite fetches_app.
    reflexivity.
Qed.

Lemma messages_distinct s t :
  NoDup [msgPromptRequired; msgApiKeyRequired; msgHttpFailure s t; msgNoStream; msgNoUrl].
Proof.
  assert (Hhead : forall m, hd 0%N m <> 22270%N -> msgHttpFailure s t <> m).
  { intros m Hm E. apply Hm. rewrite <- E. reflexivity. }
  repeat constructor; simpl; intros H;
    repeat (destruct H as [H|H]); try contradiction;
    try (symmetry in H; revert H; apply Hhead; vm_compute; discriminate);
    try (revert H; apply Hhead; vm_compute; discriminate);
    try (vm_compute in H; discriminate).
Qed.

(** C8 (as amended).  Each failure condition of [generateImage] has an
    error message of its own and none is retried: a run sends at most one
    request.  A missing prompt and a missing API key are rejected before
    the [try] block: the error is thrown to the caller, no event is
    emitted and no message is returned.  A non-success HTTP status, an
    unreadable response body and a response without a URL are caught:
    each emits exactly one error event carrying its message and returns
    the textual fallback message. *)
Theorem failures_reported :
  (forall s t,
      NoDup [msgPromptRequired; msgApiKeyRequired; msgHttpFailure s t;
             msgNoStream; msgNoUrl])
  /\
  (forall w state config, fetches (trace (generateImage w state config)) <= 1)
  /\
  (forall w state config,
      truthy (promptOf state) = false ->
      generateImage w state config = ([], Throw (newError msgPromptRequired)))
  /\
  (forall w state config,
      truthy (promptOf state) = true ->
      truthy (apiKeyOf config) = false ->
      generateImage w state config = ([], Throw (newError msgApiKeyRequired)))
  /\
  (forall w state config response,
      truthy (promptOf state) = true ->
      truthy (apiKeyOf config) = true ->
      fetch w (requestFor state config) = Return response ->
      (ok response = false ->
       reported (generateImage w state config)
                (msgHttpFailure (status response) (errorText response)))
      /\
      (ok response = true -> body response = None ->
       reported (generateImage w state config) msgNoStream)
      /\
      (forall chunks,
          ok response = true -> body response = Some chunks ->
          truthy (imageUrl (readStream w chunks)) = false ->
          reported (generateImage w state config) msgNoUrl)).
Proof.
  split; [exact messages_distinct|].
  split; [exact generateImage_fetches|].
  split; [exact generateImage_no_prompt|].
  split; [exact generateImage_no_key|].
  intros w state config response H K F. split; [|split].
  - apply generateImage_http_failure; assumption.
  - apply generateImage_no_stream; assumption.
  - intros chunks. apply generateImage_no_url; assumption.
Qed.

Lemma failures_reported_witness :
  generateImage (respondingWorld serverError) noPromptState keyConfig
    = ([], Throw (newError msgPromptRequired)) /\
  generateImage (respondingWorld serverError) catState noKeyConfig
    = ([], Throw (newError msgApiKeyRequired)) /\
  reported (generateImage (respondingWorld serverError) catState keyConfig)
           (msgHttpFailure 500 (js "busy")) /\
  reported (generateImage (respondingWorld noBody) catState keyConfig) msgNoStream /\
  reported (generateImage (streamWorld onlyGenId steadyClock) catState keyConfig) msgNoUrl.
Proof.
  destruct failures_reported as (_ & _ & Hprompt & Hkey & Hcaught).
  split; [|split; [|split; [|split]]].
  - apply Hprompt. reflexivity.
  - apply Hkey; reflexivity.
  - apply (Hcaught (respondingWorld serverError) catState keyConfig serverError);
      vm_compute; reflexivity.
  - apply (Hcaught (respondingWorld noBody) catState keyConfig noBody);
      vm_compute; reflexivity.
  - apply (Hcaught (streamWorld onlyGenId steadyClock) catState keyConfig
                   (streaming onlyGenId)) with (chunks := onlyGenId);
      vm_compute; reflexivity.
Defined.

(** Without a prompt the run emits no error event and returns no
    fallback message: the error leaves [generateImage]. *)
Lemma missing_prompt_is_thrown :
  errorEvents (trace (generateImage (respondingWorld serverError) noPromptState keyConfig))
    = [] /\
  result (generateImage (respondingWorld serverError) noPromptState keyConfig)
    = Throw (newError msgPromptRequired).
Proof. split; reflexivity. Qed.

(** ** Success *)




Lemma msgNoUrl_text : msgNoUrl = js "无法从响应中提取图像URL".
Proof. unfold msgNoUrl. reflexivity. Qed.

(** The text of the final message when no generation id was found. *)
Lemma imageText_unknown query :
  imageText query (js "unknown")
  = [10%N; 10%N] ++ js "**生成的图像**"
      ++ [10%N; 10%N] ++ js "提示词: " ++ query
      ++ [10%N; 10%N] ++ js "图像ID: unknown".
Proof.
  assert (E : js "图像ID: " ++ js "unknown" = js "图像ID: unknown")
    by (vm_compute; reflexivity).
  unfold imageText. cbn [app]. rewrite E. reflexivity.
Qed.

(** C10.  Only the image URL is required from the stream.  A stream that
    yields a generation id but no URL fails with the URL-extraction
    error (one error event, the fallback message).  A stream that yields
    a URL but no generation id succeeds, and the string [unknown] stands
    for the generation id in the artifact metadata, in the canvas-node
    metadata and in the text of the final message. *)
Theorem only_url_required :
  forall w state config response chunks,
    truthy (promptOf state) = true ->
    truthy (apiKeyOf config) = true ->
    fetch w (requestFor state config) = Return response ->
    ok response = true ->
    body response = Some chunks ->
    (truthy (imageUrl (readStream w chunks)) = false ->
     truthy (genId (readStream w chunks)) = true ->
     reported (generateImage w state config) (js "无法从响应中提取图像URL"))
    /\
    (truthy (imageUrl (readStream w chunks)) = true ->
     truthy (genId (readStream w chunks)) = false ->
     events (trace (generateImage w state config))
       = [ logGenerating (promptOf state);
           logRequest (apiUrlOf config);
           EvArtifact (imageArtifact w (promptOf state) (modelOf config) (ratioOf config)
                                     (readStream w chunks));
           EvCreateNode (imageNode w (promptOf state) (modelOf config) (ratioOf config)
                                   (readStream w chunks)) ] /\
     am_gen_id (art_metadata (imageArtifact w (promptOf state) (modelOf config)
                                            (ratioOf config) (readStream w chunks)))
       = js "unknown" /\
     nm_gen_id (nd_metadata (cn_data (imageNode w (promptOf state) (modelOf config)
                                                (ratioOf config) (readStream w chunks))))
       = js "unknown" /\
     result (generateImage w state config)
       = Return [AIMessage
                   [ImageUrlPart (imageUrl (readStream w chunks)) (js "high");
                    TextPart ([10%N; 10%N] ++ js "**生成的图像**"
                                ++ [10%N; 10%N] ++ js "提示词: " ++ promptOf state
                                ++ [10%N; 10%N] ++ js "图像ID: unknown")]]).
Proof.
  intros w state config response chunks H K F O B. split.
  - intros U _. rewrite <- msgNoUrl_text.
    apply (generateImage_no_url w state config response chunks); assumption.
  - intros U G.
    rewrite (generateImage_success w state config response chunks H K F O B U).
    unfold imageMessage, imageArtifact, imageNode, or_else. rewrite G.
    rewrite imageText_unknown.
    repeat split; reflexivity.
Qed.

Lemma only_url_required_witness :
  reported (generateImage (streamWorld onlyGenId steadyClock) catState keyConfig)
           (js "无法从响应中提取图像URL") /\
  result (generateImage (streamWorld onlyUrl steadyClock) catState keyConfig)
    = Return [AIMessage
                [ImageUrlPart
                   (imageUrl (readStream (streamWorld onlyUrl steadyClock) onlyUrl))
                   (js "high");
                 TextPart ([10%N; 10%N] ++ js "**生成的图像**"
                             ++ [10%N; 10%N] ++ js "提示词: " ++ promptOf catState
                             ++ [10%N; 10%N] ++ js "图像ID: unknown")]].
Proof.
  split.
  - apply (only_url_required (streamWorld onlyGenId steadyClock) catState keyConfig
                             (streaming onlyGenId) onlyGenId);
      vm_compute; reflexivity.
  - apply (only_url_required (streamWorld onlyUrl steadyClock) catState keyConfig
                             (streaming onlyUrl) onlyUrl);
      vm_compute; reflexivity.
Defined.

(** The two sample streams, evaluated. *)
Example only_gen_id_sample :
  errorEvents (trace (generateImage (streamWorld onlyGenId steadyClock) catState keyConfig))
  = [msgNoUrl].
Proof. vm_compute. reflexivity. Qed.

Example only_url_sample :
  map (fun e => match e with
                | EvArtifact a => am_gen_id (art_metadata a)
                | EvCreateNode n => nm_gen_id (nd_metadata (cn_data n))
                | _ => []
                end)
      (events (trace (generateImage (streamWorld onlyUrl steadyClock) catState keyConfig)))
  = [[]; []; js "unknown"; js "unknown"].
Proof. vm_compute. reflexivity. Qed.

End ImageClaims.

(* ================================================================== *)
(** * Where the stream loop ends *)
(* ================================================================== *)

Module LoopExits.
Import ImageGeneration StreamReading StreamSamples StreamFacts Samples.







(** The pair completes the read: of the three chunks one is read. *)
Example pair_ends_reading :
  exists st,
    readStreamOn steadyClock markersThenMore Stalls = Exited st /\
    reads st = 1 /\ imageUrl st = js "https://host/img.png" /\ genId st = js "abc123".
Proof. eexists. vm_compute. repeat split; reflexivity. Qed.

(** Once the clock is past the limit no further chunk is read, also
    when the stream still holds the markers: the run ends with the
    URL-extraction error. *)
Example timeout_ends_reading :
  reads (readStream (streamWorld splitMarkers stallClock) splitMarkers) = 1 /\
  fullResponse (readStream (streamWorld splitMarkers stallClock) splitMarkers)
    = js "![x](htt" /\
  errorEvents (trace (generateImage (streamWorld splitMarkers stallClock)
                                    catState keyConfig))
    = [js "无法从响应中提取图像URL"].
Proof. split; [|split]; vm_compute; reflexivity. Qed.

(** A chunk whose read was started in time is taken in, however late
    the clock is afterwards. *)
Example late_chunk_is_taken :
  imageUrl (readStream (streamWorld onlyUrl stallClock) onlyUrl)
    = js "https://host/img.png" /\
  ticks (readStream (streamWorld onlyUrl stallClock) onlyUrl) = 3.
Proof. split; vm_compute; reflexivity. Qed.

End LoopExits.

(* ================================================================== *)
(** * Laws of the effect monad *)
(* ================================================================== *)

Module EffFacts.

Section Laws.
Context {E A B : Type}.

Lemma bind_perform (e : E) (k : unit -> M E B) :
  bind (perform e) k = (e :: trace (k tt), result (k tt)).
Proof. reflexivity. Qed.

Lemma bind_call_return (e : E) (a : A) (k : A -> M E B) :
  bind (call e (Return a)) k = (e :: trace (k a), result (k a)).
Proof. reflexivity. Qed.

Lemma bind_call_throw (e : E) (x : JsError) (k : A -> M E B) :
  bind (call e (@Throw A x)) k = ([e], Throw x).
Proof. reflexivity. Qed.

Lemma bind_ret (a : A) (k : A -> M E B) : bind (ret a) k = k a.
Proof. unfold bind, ret. simpl. destruct (k a); reflexivity. Qed.

Lemma bind_throw (x : JsError) (k : A -> M E B) : bind (@throw E A x) k = throw x.
Proof. reflexivity. Qed.

Lemma bind_return (m : M E A) (a : A) (k : A -> M E B) :
  result m = Return a ->
  bind m k = (trace m ++ trace (k a), result (k a)).
Proof. unfold bind, result, trace. intros H. rewrite H. reflexivity. Qed.

Lemma bind_thrown (m : M E A) (x : JsError) (k : A -> M E B) :
  result m = Throw x ->
  bind m k = (trace m, Throw x).
Proof. unfold bind, result, trace. intros H. rewrite H. reflexivity. Qed.

End Laws.

Lemma trace_pair {E A : Type} (t : list E) (r : outcome A) : trace (t, r) = t.
Proof. reflexivity. Qed.

Lemma result_pair {E A : Type} (t : list E) (r : outcome A) : result (t, r) = r.
Proof. reflexivity. Qed.

Lemma tryFinally_perform {E A : Type} (m : M E A) (c : E) :
  tryFinally m (perform c) = (trace m ++ [c], result m).
Proof. reflexivity. Qed.

End EffFacts.

(* ================================================================== *)
(** * Properties of the agent skill *)
(* ================================================================== *)

Module AgentFacts.
Import Agent EffFacts.

Section Facts.

Context {ModelInfo User McpServers Tool Model MentionedContext PromptModule : Type}.

Variable env : Env ModelInfo User McpServers Tool Model MentionedContext PromptModule.

(** ** The conditional edge *)

Lemma lastMessage_snoc (ms : list Message) (m : Message) :
  lastMessage (ms ++ [m]) = Some m.
Proof.
  unfold lastMessage. rewrite length_app. simpl.
  replace (List.length ms + 1 - 1) with (List.length ms) by lia.
  rewrite nth_error_app2 by lia. rewrite Nat.sub_diag. reflexivity.
Qed.

(** C1.  After the [llm] node, when the last message of the graph state
    is a model response with zero tool calls ([tool_calls] undefined or
    empty) the conditional edge routes to the terminal state [END], not
    to the [tools] node; when it carries one or more tool calls the edge
    routes to [tools]. *)
Theorem conditional_edge_routes :
  forall (model : Model) (tools : list Tool) (ms : list Message) (m : Message),
    lastMessage ms = Some m ->
    (tool_calls m = None \/ tool_calls m = Some [] ->
     edge (workflow env model tools) Llm ms = Return END)
    /\
    (forall c cs, tool_calls m = Some (c :: cs) ->
                  edge (workflow env model tools) Llm ms = Return (Goto Tools)).
Proof.
  intros model tools ms m Hlast. cbn [edge workflow]. unfold routeAfterLlm.
  rewrite Hlast. split.
  - intros [H|H]; rewrite H; reflexivity.
  - intros c cs H. rewrite H. reflexivity.
Qed.

(** ** The llm/tools loop under the step limit *)

Lemma runFrom_llm model tools steps ms r target :
  invokeModel env model ms = Return r ->
  routeAfterLlm (ms ++ [r]) = Return target ->
  runFrom (workflow env model tools) recursionLimit (S steps) Llm ms
  = (ModelInvoke ms :: trace (continue env model tools steps (ms ++ [r]) target),
     result (continue env model tools steps (ms ++ [r]) target)).
Proof.
  intros Hr Hroute. cbn [runFrom handler edge workflow].
  unfold llmNode, bind, call, ret. cbn [fst snd]. rewrite Hr. cbn [fst snd app].
  rewrite Hroute. cbn [fst snd app]. destruct target; reflexivity.
Qed.

Lemma runFrom_tools model tools steps ms u :
  invokeToolNode env tools ms = Return u ->
  runFrom (workflow env model tools) recursionLimit (S steps) Tools ms
  = (ToolNodeInvoke ms
       :: trace (runFrom (workflow env model tools) recursionLimit steps Llm (ms ++ u)),
     result (runFrom (workflow env model tools) recursionLimit steps Llm (ms ++ u))).
Proof.
  intros Hu. cbn [runFrom handler edge workflow].
  unfold toolNode, bind, call. cbn [fst snd]. rewrite Hu. cbn [fst snd app].
  reflexivity.
Qed.

Lemma runFrom_exhausts (model : Model) (tools : list Tool) :
  alwaysCallsTools env model -> toolsAnswer env tools ->
  forall steps n ms,
    result (runFrom (workflow env model tools) recursionLimit steps n ms)
      = Throw (graphRecursionError recursionLimit) /\
    nodeRuns (trace (runFrom (workflow env model tools) recursionLimit steps n ms)) = steps /\
    closes (trace (runFrom (workflow env model tools) recursionLimit steps n ms)) = 0.
Proof.
  intros Hm Ht steps. induction steps as [|steps IH]; intros n ms.
  - repeat split; reflexivity.
  - destruct n.
    + destruct (Hm ms) as (r & c & cs & Hr & Hc).
      assert (Hroute : routeAfterLlm (ms ++ [r]) = Return (Goto Tools)).
      { unfold routeAfterLlm. rewrite lastMessage_snoc, Hc. reflexivity. }
      rewrite (runFrom_llm model tools steps ms r _ Hr Hroute).
      cbn [continue]. destruct (IH Tools (ms ++ [r])) as (IHr & IHn & IHc).
      unfold nodeRuns, closes, trace, result in *.
      cbn [fst snd filter isNodeRun isClose List.length].
      rewrite IHn, IHc. repeat split; assumption.
    + destruct (Ht ms) as (u & Hu).
      rewrite (runFrom_tools model tools steps ms u Hu).
      destruct (IH Llm (ms ++ u)) as (IHr & IHn & IHc).
      unfold nodeRuns, closes, trace, result in *.
      cbn [fst snd filter isNodeRun isClose List.length].
      rewrite IHn, IHc. repeat split; assumption.
Qed.

(** ** agentNode, by the outcome of its phases *)

Lemma emitSources_returns (sources : list Source) :
  result (emitSources env sources) = Return tt.
Proof. unfold emitSources. destruct (0 <? List.length sources)%nat; reflexivity. Qed.

Lemma agentNode_preprocess_fails state config module e :
  result (commonPreprocess env state config module (customInstructionsOf config))
    = Throw e ->
  agentNode env state config module
  = (trace (commonPreprocess env state config module (customInstructionsOf config)),
     Throw e).
Proof. intros H. unfold agentNode. apply bind_thrown. exact H. Qed.

Lemma agentNode_setup_fails state config module rm srcs e :
  result (commonPreprocess env state config module (customInstructionsOf config))
    = Return (rm, srcs) ->
  result (setupAgent env (user config)) = Throw e ->
  agentNode env state config module
  = (trace (commonPreprocess env state config module (customInstructionsOf config))
       ++ SetStep (js "answerQuestion")
       :: trace (emitSources env srcs) ++ trace (setupAgent env (user config)),
     Throw e).
Proof.
  intros Hp Hs. unfold agentNode.
  rewrite (bind_return _ (rm, srcs)) by exact Hp. cbn beta iota.
  rewrite bind_perform. unfold trace at 2, result at 1. cbn [fst snd].
  rewrite (bind_return _ tt) by apply emitSources_returns.
  rewrite (bind_thrown _ e) by exact Hs.
  reflexivity.
Qed.

Lemma agentNode_runs_graph state config module rm srcs model tools :
  result (commonPreprocess env state config module (customInstructionsOf config))
    = Return (rm, srcs) ->
  result (setupAgent env (user config)) = Return (model, tools) ->
  agentNode env state config module
  = (trace (commonPreprocess env state config module (customInstructionsOf config))
       ++ SetStep (js "answerQuestion")
       :: trace (emitSources env srcs) ++ trace (setupAgent env (user config))
       ++ trace (invoke (workflow env model tools) rm recursionLimit) ++ [ClientClose],
     result (invoke (workflow env model tools) rm recursionLimit)).
Proof.
  intros Hp Hs. unfold agentNode.
  rewrite (bind_return _ (rm, srcs)) by exact Hp. cbn beta iota.
  rewrite bind_perform. unfold trace at 2, result at 1. cbn [fst snd].
  rewrite (bind_return _ tt) by apply emitSources_returns.
  rewrite (bind_return _ (model, tools)) by exact Hs. cbn beta iota.
  rewrite tryFinally_perform.
  reflexivity.
Qed.

(** ** Where the client is closed *)

Lemma closes_app (t1 t2 : list (@Effect ModelInfo MentionedContext PromptModule)) :
  closes (t1 ++ t2) = closes t1 + closes t2.
Proof. unfold closes. rewrite filter_app, length_app. reflexivity. Qed.

Lemma clients_app (t1 t2 : list (@Effect ModelInfo MentionedContext PromptModule)) :
  clients (t1 ++ t2) = clients t1 + clients t2.
Proof. unfold clients. rewrite filter_app, length_app. reflexivity. Qed.

Ltac case_run :=
  repeat (cbn [fst snd app];
          match goal with
          | |- context [match ?x with _ => _ end] => destruct x eqn:?
          end);
  cbn [fst snd app].

Lemma crawlContextUrls_quiet config :
  closes (trace (crawlContextUrls env config)) = 0 /\
  clients (trace (crawlContextUrls env config)) = 0 /\
  prepareCalls (trace (crawlContextUrls env config)) = [] /\
  buildCalls (trace (crawlContextUrls env config)) = [].
Proof.
  unfold crawlContextUrls, call, ret, trace.
  case_run; repeat split; reflexivity.
Qed.

Lemma commonPreprocess_quiet state config module ci :
  closes (trace (commonPreprocess env state config module ci)) = 0 /\
  clients (trace (commonPreprocess env state config module ci)) = 0.
Proof.
  unfold commonPreprocess, assemble, crawlContextUrls, bind, call, perform, ret, trace.
  case_run; split; reflexivity.
Qed.

(** What a run of [commonPreprocess] consists of, by the outcome of the
    two crawls. *)
Lemma commonPreprocess_crawled state config module ci q ctx qry :
  processQuery env state config true = Return q ->
  result (crawlContextUrls env config) = Return ctx ->
  extractAndCrawlUrls env (query q) = Return qry ->
  commonPreprocess env state config module ci
  = (SetStep (js "analyzeQuery") :: ProcessQuery true
       :: trace (crawlContextUrls env config)
       ++ ExtractAndCrawlUrls (query q) 5 8
       :: trace (assemble env state config module ci q (ctx ++ qry)),
     result (assemble env state config module ci q (ctx ++ qry))).
Proof.
  intros Hq Hc He. unfold commonPreprocess.
  rewrite bind_perform, Hq, bind_call_return.
  rewrite (bind_return _ ctx) by exact Hc.
  rewrite He, bind_call_return. reflexivity.
Qed.

Lemma commonPreprocess_cases state config module ci q :
  processQuery env state config true = Return q ->
  (exists e,
      result (crawlContextUrls env config) = Throw e /\
      commonPreprocess env state config module ci
      = (SetStep (js "analyzeQuery") :: ProcessQuery true
           :: trace (crawlContextUrls env config), Throw e))
  \/ (exists e,
         extractAndCrawlUrls env (query q) = Throw e /\
         commonPreprocess env state config module ci
         = (SetStep (js "analyzeQuery") :: ProcessQuery true
              :: trace (crawlContextUrls env config)
              ++ [ExtractAndCrawlUrls (query q) 5 8], Throw e))
  \/ (exists ctx qry,
         result (crawlContextUrls env config) = Return ctx /\
         extractAndCrawlUrls env (query q) = Return qry).
Proof.
  intros Hq.
  destruct (result (crawlContextUrls env config)) as [ctx|e] eqn:Hc.
  - destruct (extractAndCrawlUrls env (query q)) as [qry|e] eqn:He.
    + right. right. exists ctx, qry. split; reflexivity.
    + right. left. exists e. split; [reflexivity|]. unfold commonPreprocess.
      rewrite bind_perform, Hq, bind_call_return.
      rewrite (bind_return _ ctx) by exact Hc.
      rewrite He, bind_call_throw. reflexivity.
  - left. exists e. split; [reflexivity|]. unfold commonPreprocess.
    rewrite bind_perform, Hq, bind_call_return.
    rewrite (bind_thrown _ e) by exact Hc. reflexivity.
Qed.

Lemma emitSources_quiet (sources : list Source) :
  closes (trace (emitSources env sources)) = 0 /\
  clients (trace (emitSources env sources)) = 0.
Proof. unfold emitSources. destruct (0 <? List.length sources)%nat; split; reflexivity. Qed.

Lemma setupAgent_no_close (u : User) : closes (trace (setupAgent env u)) = 0.
Proof.
  unfold setupAgent, tryCatch, bind, call, perform, ret, throw, trace.
  case_run; reflexivity.
Qed.

Lemma setupAgent_clients (u : User) (r : McpServers) :
  listMcpServers env u = Return r ->
  clients (trace (setupAgent env u)) = 1.
Proof.
  intros H. unfold setupAgent. rewrite H.
  unfold tryCatch, bind, call, perform, ret, throw, trace.
  case_run; reflexivity.
Qed.

Lemma runFrom_no_close (model : Model) (tools : list Tool) :
  forall limit steps n ms,
    closes (trace (runFrom (workflow env model tools) limit steps n ms)) = 0.
Proof.
  intros limit steps. induction steps as [|steps IH]; intros n ms; [reflexivity|].
  cbn [runFrom]. destruct n; cbn [handler edge workflow].
  - unfold llmNode, call. destruct (invokeModel env model ms) as [r|e]; [|reflexivity].
    unfold bind at 2. cbn [fst snd ret app].
    unfold bind at 1. cbn [fst snd ret app].
    unfold bind at 1. cbn [fst snd ret app].
    destruct (routeAfterLlm (ms ++ [r])) as [[n'|]|e]; cbn [fst snd app]; try reflexivity.
    unfold closes, trace in *. cbn [fst filter isClose]. apply IH.
  - unfold toolNode, call. destruct (invokeToolNode env tools ms) as [u|e]; [|reflexivity].
    unfold bind at 1. cbn [fst snd ret app].
    unfold bind at 1. cbn [fst snd ret app].
    unfold closes, trace in *. cbn [fst filter isClose]. apply IH.
Qed.

(** On the path that reaches the workflow the client is closed once,
    however the workflow ends. *)
Lemma agentNode_closes_after_setup state config module rm srcs model tools :
  result (commonPreprocess env state config module (customInstructionsOf config))
    = Return (rm, srcs) ->
  result (setupAgent env (user config)) = Return (model, tools) ->
  closes (trace (agentNode env state config module)) = 1.
Proof.
  intros Hp Hs.
  rewrite (agentNode_runs_graph state config module rm srcs model tools Hp Hs).
  unfold trace at 1. cbn [fst].
  change (SetStep (js "answerQuestion") :: ?x) with ([SetStep (js "answerQuestion")] ++ x).
  rewrite !closes_app.
  destruct (commonPreprocess_quiet state config module (customInstructionsOf config)) as [-> _].
  destruct (emitSources_quiet srcs) as [-> _].
  rewrite setupAgent_no_close. unfold invoke. rewrite runFrom_no_close. reflexivity.
Qed.

(** On the path where the setup throws the client is not closed. *)
Lemma agentNode_closes_after_failed_setup state config module rm srcs e :
  result (commonPreprocess env state config module (customInstructionsOf config))
    = Return (rm, srcs) ->
  result (setupAgent env (user config)) = Throw e ->
  closes (trace (agentNode env state config module)) = 0.
Proof.
  intros Hp Hs.
  rewrite (agentNode_setup_fails state config module rm srcs e Hp Hs).
  unfold trace at 1. cbn [fst].
  change (SetStep (js "answerQuestion") :: ?x) with ([SetStep (js "answerQuestion")] ++ x).
  rewrite !closes_app.
  destruct (commonPreprocess_quiet state config module (customInstructionsOf config)) as [-> _].
  destruct (emitSources_quiet srcs) as [-> _].
  rewrite setupAgent_no_close. reflexivity.
Qed.

(** C2.  With a model that requests a tool call on every response (and a
    tool node that answers each request), the llm/tools loop does not
    run forever: started with the configured recursion limit of 100 it
    executes 100 node steps and then ends with the step-limit error.
    [agentNode] does not catch that error: it leaves the node as a thrown
    error, after the client has been closed. *)
Theorem tool_loop_hits_recursion_limit :
  forall (model : Model) (tools : list Tool),
    alwaysCallsTools env model ->
    toolsAnswer env tools ->
    (forall input,
        result (invoke (workflow env model tools) input recursionLimit)
          = Throw (graphRecursionError 100) /\
        nodeRuns (trace (invoke (workflow env model tools) input recursionLimit)) = 100)
    /\
    (forall state config module rm srcs,
        result (commonPreprocess env state config module (customInstructionsOf config))
          = Return (rm, srcs) ->
        result (setupAgent env (user config)) = Return (model, tools) ->
        result (agentNode env state config module) = Throw (graphRecursionError 100) /\
        closes (trace (agentNode env state config module)) = 1).
Proof.
  intros model tools Hm Ht. split.
  - intros input. unfold invoke.
    destruct (runFrom_exhausts model tools Hm Ht recursionLimit
                               (entry (workflow env model tools)) input)
      as (Hr & Hn & _).
    split; assumption.
  - intros state config module rm srcs Hp Hs. split.
    + rewrite (agentNode_runs_graph state config module rm srcs model tools Hp Hs).
      unfold result at 1. cbn [snd]. unfold invoke.
      apply (runFrom_exhausts model tools Hm Ht).
    + apply (agentNode_closes_after_setup state config module rm srcs model tools Hp Hs).
Qed.

(** ** Token budget and URL sources in commonPreprocess *)

Lemma assemble_without_budget state config module ci q urlSources :
  (remainingTokens q <= 0)%Z ->
  prepareCalls (trace (assemble env state config module ci q urlSources)) = [] /\
  exists args,
    buildCalls (trace (assemble env state config module ci q urlSources)) = [args] /\
    ba_context args = [] /\ ba_needPrepareContext args = false.
Proof.
  intros Hb.
  assert (Hz : (0 <? remainingTokens q)%Z = false) by (apply Z.ltb_ge; exact Hb).
  unfold assemble. rewrite Hz, !andb_false_r. rewrite bind_ret. cbn [fst snd andb].
  match goal with
  | |- context [call (BuildFinalRequestMessages ?a) _] =>
    destruct (buildFinalRequestMessages env a) eqn:?; split;
      [reflexivity | exists a; repeat split; reflexivity
      |reflexivity | exists a; repeat split; reflexivity]
  end.
Qed.

Lemma assemble_with_sources state config module ci q urlSources :
  (0 < remainingTokens q)%Z ->
  urlSources <> [] ->
  exists args,
    prepareCalls (trace (assemble env state config module ci q urlSources)) = [args] /\
    pc_urlSources args = urlSources.
Proof.
  intros Hb Hne.
  assert (Hz : (0 <? remainingTokens q)%Z = true) by (apply Z.ltb_lt; exact Hb).
  assert (Hl : (0 <? List.length urlSources)%nat = true).
  { destruct urlSources; [contradiction | reflexivity]. }
  unfold assemble. rewrite Hz, Hl, orb_true_r, orb_true_l, andb_true_l.
  match goal with
  | |- context [call (PrepareContext ?a) _] => exists a
  end.
  split; [|reflexivity].
  unfold bind, call, perform, ret, trace.
  case_run; reflexivity.
Qed.

Lemma prepareCalls_app (t1 t2 : list (@Effect ModelInfo MentionedContext PromptModule)) :
  prepareCalls (t1 ++ t2) = prepareCalls t1 ++ prepareCalls t2.
Proof. apply flat_map_app. Qed.

Lemma buildCalls_app (t1 t2 : list (@Effect ModelInfo MentionedContext PromptModule)) :
  buildCalls (t1 ++ t2) = buildCalls t1 ++ buildCalls t2.
Proof. apply flat_map_app. Qed.

(** C4.  When the query processor returns a token budget
    [remainingTokens <= 0], [commonPreprocess] never calls
    [prepareContext], and every call of the message builder receives the
    empty string as context (with [needPrepareContext] false); when the
    two crawls return, the builder is called exactly once. *)
Theorem no_budget_skips_context :
  forall state config module ci q,
    processQuery env state config true = Return q ->
    (remainingTokens q <= 0)%Z ->
    prepareCalls (trace (commonPreprocess env state config module ci)) = [] /\
    Forall (fun a => ba_context a = [] /\ ba_needPrepareContext a = false)
           (buildCalls (trace (commonPreprocess env state config module ci))) /\
    (forall ctx qry,
        result (crawlContextUrls env config) = Return ctx ->
        extractAndCrawlUrls env (query q) = Return qry ->
        exists args,
          buildCalls (trace (commonPreprocess env state config module ci)) = [args] /\
          ba_context args = []).
Proof.
  intros state config module ci q Hq Hb.
  destruct (crawlContextUrls_quiet config) as (_ & _ & Hnp & Hnb).
  assert (Hcrawled : forall ctx qry,
             result (crawlContextUrls env config) = Return ctx ->
             extractAndCrawlUrls env (query q) = Return qry ->
             prepareCalls (trace (commonPreprocess env state config module ci)) = [] /\
             exists args,
               buildCalls (trace (commonPreprocess env state config module ci)) = [args] /\
               ba_context args = [] /\ ba_needPrepareContext args = false).
  { intros ctx qry Hc He.
    rewrite (commonPreprocess_crawled state config module ci q ctx qry Hq Hc He).
    destruct (assemble_without_budget state config module ci q (ctx ++ qry) Hb)
      as (Hp & args & Hbuild & Hctx & Hneed).
    rewrite !trace_pair.
    change (SetStep (js "analyzeQuery") :: ProcessQuery true :: ?x)
      with ([SetStep (js "analyzeQuery"); ProcessQuery true] ++ x).
    change (ExtractAndCrawlUrls (query q) 5 8 :: ?x)
      with ([ExtractAndCrawlUrls (query q) 5 8] ++ x).
    rewrite !prepareCalls_app, !buildCalls_app, Hnp, Hnb, Hp, Hbuild.
    split; [reflexivity|]. exists args. repeat split; assumption. }
  destruct (commonPreprocess_cases state config module ci q Hq)
    as [(e & Hthrown & Hrun) | [(e & Hthrown & Hrun) | (ctx & qry & Hc & He)]].
  - rewrite Hrun, !trace_pair.
    change (SetStep (js "analyzeQuery") :: ProcessQuery true :: ?x)
      with ([SetStep (js "analyzeQuery"); ProcessQuery true] ++ x).
    rewrite !prepareCalls_app, !buildCalls_app, Hnp, Hnb.
    split; [reflexivity|]. split; [constructor|].
    intros ctx qry Hc He. congruence.
  - rewrite Hrun, !trace_pair.
    change (SetStep (js "analyzeQuery") :: ProcessQuery true :: ?x)
      with ([SetStep (js "analyzeQuery"); ProcessQuery true] ++ x).
    rewrite !prepareCalls_app, !buildCalls_app, Hnp, Hnb.
    split; [reflexivity|]. split; [constructor|].
    intros ctx qry Hc He. congruence.
  - destruct (Hcrawled ctx qry Hc He) as (Hp & args & Hbuild & Hctx & Hneed).
    split; [exact Hp|]. split.
    + rewrite Hbuild. repeat constructor; assumption.
    + intros ctx' qry' _ _. exists args. split; assumption.
Qed.

Lemma assemble_passes_sources state config module ci q urlSources :
  Forall (fun a => pc_urlSources a = urlSources)
         (prepareCalls (trace (assemble env state config module ci q urlSources))).
Proof.
  unfold assemble, bind, call, perform, ret, trace.
  case_run; repeat constructor.
Qed.

(** C5.  The merged URL-source list is the concatenation of the sources
    crawled from the context URLs followed by the sources derived from
    the query (context sources [[A; B]] and query-derived sources
    [[C; D]] give [[A; B; C; D]]): this list, and no other, is what
    [commonPreprocess] hands to the context preparer, and it does hand
    it over once whenever the budget is positive and the list is not
    empty. *)
Theorem url_sources_merged :
  forall state config module ci q ctx qry,
    processQuery env state config true = Return q ->
    result (crawlContextUrls env config) = Return ctx ->
    extractAndCrawlUrls env (query q) = Return qry ->
    Forall (fun a => pc_urlSources a = ctx ++ qry)
           (prepareCalls (trace (commonPreprocess env state config module ci)))
    /\
    ((0 < remainingTokens q)%Z ->
     ctx ++ qry <> [] ->
     exists args,
       prepareCalls (trace (commonPreprocess env state config module ci)) = [args] /\
       pc_urlSources args = ctx ++ qry).
Proof.
  intros state config module ci q ctx qry Hq Hc He.
  rewrite (commonPreprocess_crawled state config module ci q ctx qry Hq Hc He).
  destruct (crawlContextUrls_quiet config) as (_ & _ & Hnp & _).
  rewrite trace_pair.
  change (SetStep (js "analyzeQuery") :: ProcessQuery true :: ?x)
    with ([SetStep (js "analyzeQuery"); ProcessQuery true] ++ x).
  change (ExtractAndCrawlUrls (query q) 5 8 :: ?x)
    with ([ExtractAndCrawlUrls (query q) 5 8] ++ x).
  rewrite !prepareCalls_app, Hnp. cbn [prepareCalls flat_map app].
  split.
  - apply assemble_passes_sources.
  - intros Hb Hne.
    destruct (assemble_with_sources state config module ci q (ctx ++ qry) Hb Hne)
      as (args & Hp & Hu).
    exists args. split; assumption.
Qed.

End Facts.

End AgentFacts.

Module AgentClaims.
Import Agent AgentFacts AgentSamples.

Lemma conditional_edge_routes_witness :
  edge (workflow loopingEnv tt [tt]) Llm [human (js "hi"); finalAnswer] = Return END /\
  edge (workflow loopingEnv tt [tt]) Llm [human (js "hi"); toolRequest]
    = Return (Goto Tools).
Proof.
  split.
  - apply (conditional_edge_routes loopingEnv tt [tt]
                                   [human (js "hi"); finalAnswer] finalAnswer).
    + reflexivity.
    + right. reflexivity.
  - apply (conditional_edge_routes loopingEnv tt [tt]
                                   [human (js "hi"); toolRequest] toolRequest)
      with (c := searchCall) (cs := []).
    + reflexivity.
    + reflexivity.
Defined.

Lemma tool_loop_hits_recursion_limit_witness :
  result (agentNode loopingEnv sampleState sampleConfig tt)
    = Throw (graphRecursionError 100) /\
  closes (trace (agentNode loopingEnv sampleState sampleConfig tt)) = 1.
Proof.
  assert (Hm : alwaysCallsTools loopingEnv tt).
  { intros ms. exists toolRequest, searchCall, []. split; reflexivity. }
  assert (Ht : toolsAnswer loopingEnv [tt]).
  { intros ms. exists [toolResult]. reflexivity. }
  destruct (tool_loop_hits_recursion_limit loopingEnv tt [tt] Hm Ht) as [_ Hnode].
  apply (Hnode sampleState sampleConfig tt
               [human (js "what is new")] [sourceA; sourceB; sourceC; sourceD]).
  - vm_compute. reflexivity.
  - vm_compute. reflexivity.
Defined.

(** C3 (evaluation at the failing input).  When the MCP servers offer no
    tool, [setupAgent] throws after the client was created and
    [agentNode] rethrows: one client was created and [close] was not
    called. *)
Theorem client_left_open_when_setup_fails :
  clients (trace (agentNode noToolsEnv sampleState sampleConfig tt)) = 1 /\
  closes (trace (agentNode noToolsEnv sampleState sampleConfig tt)) = 0 /\
  result (agentNode noToolsEnv sampleState sampleConfig tt)
    = Throw (newError (js "Failed to initialize MCP tools")).
Proof. vm_compute. repeat split; reflexivity. Qed.

Lemma no_budget_skips_context_witness :
  prepareCalls (trace (commonPreprocess brokeEnv sampleState sampleConfig tt None)) = [] /\
  Forall (fun a => ba_context a = [] /\ ba_needPrepareContext a = false)
         (buildCalls (trace (commonPreprocess brokeEnv sampleState sampleConfig tt None))) /\
  (forall ctx qry,
      result (crawlContextUrls brokeEnv sampleConfig) = Return ctx ->
      extractAndCrawlUrls brokeEnv (query (sampleQuery 0)) = Return qry ->
      exists args,
        buildCalls (trace (commonPreprocess brokeEnv sampleState sampleConfig tt None))
          = [args] /\
        ba_context args = []).
Proof.
  apply (no_budget_skips_context brokeEnv sampleState sampleConfig tt None (sampleQuery 0)).
  - reflexivity.
  - vm_compute. discriminate.
Defined.

Lemma url_sources_merged_witness :
  Forall (fun a => pc_urlSources a = [sourceA; sourceB] ++ [sourceC; sourceD])
         (prepareCalls (trace (commonPreprocess loopingEnv sampleState sampleConfig tt None)))
  /\
  ((0 < remainingTokens (sampleQuery 1000))%Z ->
   [sourceA; sourceB] ++ [sourceC; sourceD] <> [] ->
   exists args,
     prepareCalls (trace (commonPreprocess loopingEnv sampleState sampleConfig tt None))
       = [args] /\
     pc_urlSources args = [sourceA; sourceB] ++ [sourceC; sourceD]).
Proof.
  apply (url_sources_merged loopingEnv sampleState sampleConfig tt None (sampleQuery 1000)
                            [sourceA; sourceB] [sourceC; sourceD]).
  - reflexivity.
  - vm_compute. reflexivity.
  - reflexivity.
Defined.

(** The sample run does call the preparer, with [[A; B; C; D]]. *)
Example url_sources_merged_sample :
  map pc_urlSources
      (prepareCalls (trace (commonPreprocess loopingEnv sampleState sampleConfig tt None)))
  = [[sourceA; sourceB; sourceC; sourceD]].
Proof. vm_compute. reflexivity. Qed.

End AgentClaims.

(* ================================================================== *)
(** * What the two patterns extract *)
(* ================================================================== *)

Module Soundness.
Import Verdict Capture ImageGeneration.

Lemma pushAll_cons c l g : pushAll (c :: l) g = pushAll l (push c g).
Proof. reflexivity. Qed.

Lemma pushAll_opened l t :
  pushAll l {| opened := true; text := t |} = {| opened := true; text := t ++ l |}.
Proof.
  revert t. induction l as [|c l IH]; intros t.
  - simpl. rewrite app_nil_r. reflexivity.
  - rewrite pushAll_cons. unfold push. cbn [opened text].
    rewrite IH, <- app_assoc. reflexivity.
Qed.

Lemma pushAll_closed l g : opened g = false -> pushAll l g = g.
Proof.
  revert g. induction l as [|c l IH]; intros g H; simpl; [reflexivity|].
  unfold push. rewrite H. apply IH. exact H.
Qed.

(** Literal characters consume exactly themselves. *)
Lemma matchAt_lits l p :
  forall s g r,
    matchAt (map Chr l ++ p) s g = Some r ->
    exists s', s = l ++ s' /\ matchAt p s' (pushAll l g) = Some r.
Proof.
  induction l as [|c l IH]; intros s g r H; simpl in *.
  - exists s. split; [reflexivity | exact H].
  - destruct s as [|x s]; [discriminate|].
    destruct (x =? c)%N eqn:E; [|discriminate].
    apply N.eqb_eq in E. subst x.
    destruct (IH _ _ _ H) as (s' & -> & Hs').
    exists s'. split; [reflexivity | exact Hs'].
Qed.

(** A lazy wildcard consumes a stretch without line terminators, and
    the shortest one after which the rest of the pattern matches. *)
Lemma lazyDots_inv k :
  forall s g r,
    lazyDots k s g = Some r ->
    exists a s',
      s = a ++ s' /\ sameLine a /\ k s' (pushAll a g) = Some r /\
      (forall a1 a2, a = a1 ++ a2 -> a2 <> [] -> k (a2 ++ s') (pushAll a1 g) = None).
Proof.
  intros s. induction s as [|c s IH]; intros g r; simpl.
  - destruct (k [] g) eqn:E; [|discriminate].
    intros H. exists [], []. split; [reflexivity|]. split; [constructor|].
    split; [simpl; congruence|].
    intros a1 a2 Ha Hne. destruct a1; destruct a2; try discriminate. contradiction.
  - destruct (k (c :: s) g) eqn:E.
    + intros H. exists [], (c :: s). split; [reflexivity|]. split; [constructor|].
      split; [simpl; congruence|].
      intros a1 a2 Ha Hne. destruct a1; destruct a2; try discriminate. contradiction.
    + destruct (isLineTerminator c) eqn:L; [discriminate|].
      intros H. destruct (IH _ _ H) as (a & s' & -> & Hline & Hk & Hmin).
      exists (c :: a), s'. split; [reflexivity|]. split; [constructor; assumption|].
      split; [exact Hk|].
      intros a1 a2 Ha Hne. destruct a1 as [|c1 a1]; simpl in Ha.
      * subst a2. exact E.
      * injection Ha as <- ->. rewrite pushAll_cons. apply Hmin; [reflexivity | exact Hne].
Qed.

Lemma exec_found p :
  forall s r, exec p s = Some r ->
  exists pre rest, s = pre ++ rest /\ matchAt p rest noCapture = Some r.
Proof.
  intros s. induction s as [|c s IH]; intros r; simpl.
  - destruct (matchAt p [] noCapture) eqn:E; [|discriminate].
    intros H. exists [], []. split; [reflexivity | congruence].
  - destruct (matchAt p (c :: s) noCapture) eqn:E.
    + intros H. exists [], (c :: s). split; [reflexivity | congruence].
    + intros H. destruct (IH _ H) as (pre & rest & -> & Hm).
      exists (c :: pre), rest. split; [reflexivity | exact Hm].
Qed.

(** A stretch that could not be cut short before a given character
    does not contain that character. *)
Lemma shortest_lacks (c : codeunit) (a s' : jsstring) (g : capture) :
  (forall a1 a2, a = a1 ++ a2 -> a2 <> [] ->
                 matchAt [GroupClose; Chr c] (a2 ++ s') (pushAll a1 g) = None) ->
  lacks c a = true.
Proof.
  intros Hmin. unfold lacks. apply forallb_forall. intros x Hx.
  apply in_split in Hx. destruct Hx as (a1 & a2 & ->).
  specialize (Hmin a1 (x :: a2) eq_refl ltac:(discriminate)).
  simpl in Hmin. destruct (x =? c)%N; [discriminate | reflexivity].
Qed.

(** What [/!\[.*?\]\((https:\/\/.*?)\)/] extracts: the text sits in the
    buffer between [](] and the first [)] after it, behind a [![] on
    the same line; it starts with [https://] and has neither a closing
    parenthesis nor a line break in it. *)
Theorem url_match_shape :
  forall s u,
    exec urlRe s = Some u ->
    exists pre alt rest tail,
      s = pre ++ js "![" ++ alt ++ js "](" ++ u ++ js ")" ++ tail /\
      u = js "https://" ++ rest /\
      sameLine alt /\ sameLine rest /\ lacks 41%N rest = true.
Proof.
  intros s u H. apply exec_found in H. destruct H as (pre & m & -> & H).
  unfold urlRe, chars in H.
  apply matchAt_lits in H. destruct H as (s1 & -> & H).
  cbn [app] in H. cbn [matchAt] in H.
  apply lazyDots_inv in H. destruct H as (alt & s2 & -> & Halt & H & _).
  apply matchAt_lits in H. destruct H as (s3 & -> & H).
  cbn [app matchAt] in H.
  apply matchAt_lits in H. destruct H as (s4 & -> & H).
  cbn [app matchAt] in H.
  apply lazyDots_inv in H. destruct H as (rest & s5 & -> & Hrest & H & Hmin).
  rewrite !pushAll_opened in H. cbn [matchAt text] in H.
  pose proof (shortest_lacks 41%N rest s5 _ Hmin) as Hlacks.
  change (map Chr (js ")")) with [Chr 41%N] in H. cbn [matchAt] in H.
  destruct s5 as [|x tail]; [discriminate|].
  destruct (x =? 41)%N eqn:E; [|discriminate].
  apply N.eqb_eq in E. subst x. injection H as <-.
  exists pre, alt, rest, tail. repeat split; assumption.
Qed.

(** What [/gen_id: `(.*?)`/] extracts: the text between [gen_id: `]
    and the next backtick, with no backtick and no line break in it. *)
Theorem gen_id_match_shape :
  forall s id,
    exec genIdRe s = Some id ->
    exists pre tail,
      s = pre ++ js "gen_id: `" ++ id ++ js "`" ++ tail /\
      sameLine id /\ lacks 96%N id = true.
Proof.
  intros s id H. apply exec_found in H. destruct H as (pre & m & -> & H).
  unfold genIdRe, chars in H.
  apply matchAt_lits in H. destruct H as (s1 & -> & H).
  cbn [app matchAt] in H.
  apply lazyDots_inv in H. destruct H as (body & s2 & -> & Hbody & H & Hmin).
  rewrite pushAll_opened in H. cbn [matchAt text app] in H.
  pose proof (shortest_lacks 96%N body s2 _ Hmin) as Hlacks.
  change (map Chr (js "`")) with [Chr 96%N] in H. cbn [matchAt] in H.
  destruct s2 as [|x tail]; [discriminate|].
  destruct (x =? 96)%N eqn:E; [|discriminate].
  apply N.eqb_eq in E. subst x. injection H as <-.
  exists pre, tail. repeat split; assumption.
Qed.

End Soundness.

(* ================================================================== *)
(** * More properties of the image-generation skill *)
(* ================================================================== *)

Module ImageExtras.
Import Verdict Growth Capture ImageGeneration StreamFacts ImageFacts Soundness.
Import ImageConfig Samples.

Lemma url_match_shape_witness :
  exists pre alt rest tail,
    js "see ![x](https://host/img.png) and more"
      = pre ++ js "![" ++ alt ++ js "](" ++ js "https://host/img.png" ++ js ")" ++ tail /\
    js "https://host/img.png" = js "https://" ++ rest /\
    sameLine alt /\ sameLine rest /\ lacks 41%N rest = true.
Proof.
  apply (url_match_shape (js "see ![x](https://host/img.png) and more")
                         (js "https://host/img.png")).
  vm_compute. reflexivity.
Defined.

Lemma gen_id_match_shape_witness :
  exists pre tail,
    js "done, gen_id: `abc123`." = pre ++ js "gen_id: `" ++ js "abc123" ++ js "`" ++ tail /\
    sameLine (js "abc123") /\ lacks 96%N (js "abc123") = true.
Proof.
  apply (gen_id_match_shape (js "done, gen_id: `abc123`.") (js "abc123")).
  vm_compute. reflexivity.
Defined.

(** ** The loop and the text it received *)

Lemma readLoop_tracked clock startTime :
  forall chunks st, tracked st -> tracked (readLoop clock startTime chunks st).
Proof.
  intros chunks. induction chunks as [|chunk rest IH]; intros st Hst; cbn [readLoop].
  - destruct (clock (ticks st) - startTime <? timeout)%Z; exact Hst.
  - destruct (clock (ticks st) - startTime <? timeout)%Z; [|exact Hst].
    assert (Hab : tracked (absorb (countRead (tick st)) chunk))
      by (apply absorb_tracked; exact Hst).
    destruct (truthy (imageUrl (absorb (countRead (tick st)) chunk))
              && truthy (genId (absorb (countRead (tick st)) chunk)));
      [exact Hab | apply IH; exact Hab].
Qed.

Lemma readLoop_consumed clock startTime :
  forall chunks st,
  exists k,
    k <= List.length chunks /\
    fullResponse (readLoop clock startTime chunks st)
      = fullResponse st ++ List.concat (firstn k chunks) /\
    reads st + k <= reads (readLoop clock startTime chunks st) /\
    reads (readLoop clock startTime chunks st) <= reads st + S k.
Proof.
  intros chunks. induction chunks as [|chunk rest IH]; intros st; cbn [readLoop].
  - exists 0. destruct (clock (ticks st) - startTime <? timeout)%Z;
      simpl; rewrite app_nil_r; repeat split; lia.
  - destruct (clock (ticks st) - startTime <? timeout)%Z.
    + destruct (truthy (imageUrl (absorb (countRead (tick st)) chunk))
                && truthy (genId (absorb (countRead (tick st)) chunk))).
      * exists 1. simpl. rewrite app_nil_r. repeat split; lia.
      * destruct (IH (absorb (countRead (tick st)) chunk)) as (k & Hk & Hf & Hlo & Hhi).
        exists (S k). rewrite Hf. cbn [fullResponse absorb countRead tick reads] in *.
        simpl List.concat. rewrite <- app_assoc. simpl List.length.
        repeat split; try lia.
    + exists 0. simpl. rewrite app_nil_r. repeat split; lia.
Qed.

(** The stream loop reads at most once past the chunks of the stream;
    the buffer it ends with is the concatenation of the first [k]
    chunks, with [k] or [k + 1] reads made; and what it extracted is
    what the two patterns find in that buffer (the empty string when a
    pattern finds nothing, or an empty group). *)
Theorem extracted_from_received_text :
  forall w chunks,
  exists k,
    k <= List.length chunks /\
    fullResponse (readStream w chunks) = List.concat (firstn k chunks) /\
    k <= reads (readStream w chunks) <= S k /\
    imageUrl (readStream w chunks) = group1 urlRe (List.concat (firstn k chunks)) /\
    genId (readStream w chunks) = group1 genIdRe (List.concat (firstn k chunks)).
Proof.
  intros w chunks. unfold readStream.
  destruct (readLoop_consumed (now w) (now w 0) chunks initialRead)
    as (k & Hk & Hf & Hlo & Hhi).
  destruct (readLoop_tracked (now w) (now w 0) chunks initialRead initialRead_tracked)
    as [Hu Hg].
  exists k. simpl in Hf, Hlo, Hhi. rewrite Hu, Hg, Hf.
  repeat split; try lia; reflexivity.
Qed.

(** Once a URL, or a generation id, has been extracted, no later chunk
    replaces it. *)
Theorem first_extraction_is_kept :
  forall clock startTime chunks st,
    (truthy (imageUrl st) = true ->
     imageUrl (readLoop clock startTime chunks st) = imageUrl st)
    /\
    (truthy (genId st) = true ->
     genId (readLoop clock startTime chunks st) = genId st).
Proof.
  intros clock startTime chunks.
  induction chunks as [|chunk rest IH]; intros st; cbn [readLoop].
  - destruct (clock (ticks st) - startTime <? timeout)%Z; split; reflexivity.
  - destruct (clock (ticks st) - startTime <? timeout)%Z; [|split; reflexivity].
    set (st' := absorb (countRead (tick st)) chunk).
    assert (Hu : truthy (imageUrl st) = true -> imageUrl st' = imageUrl st).
    { intros H. unfold st', absorb. cbn [imageUrl countRead tick].
      rewrite H, andb_false_r. reflexivity. }
    assert (Hg : truthy (genId st) = true -> genId st' = genId st).
    { intros H. unfold st', absorb. cbn [genId countRead tick].
      rewrite H, andb_false_r. reflexivity. }
    destruct (truthy (imageUrl st') && truthy (genId st')).
    + split; assumption.
    + destruct (IH st') as [IHu IHg]. split; intros H.
      * rewrite IHu by (rewrite (Hu H); exact H). apply Hu. exact H.
      * rewrite IHg by (rewrite (Hg H); exact H). apply Hg. exact H.
Qed.

End ImageExtras.

Module ImageRunExtras.
Import Verdict Growth Capture ImageGeneration StreamFacts ImageFacts Soundness.
Import ImageConfig Samples.

Lemma extracted_values_kept_witness :
  imageUrl (readLoop steadyClock 0 [js "![y](https://other/b.png)"]
                     (absorb initialRead (js "![x](https://host/img.png)")))
    = imageUrl (absorb initialRead (js "![x](https://host/img.png)")) /\
  genId (readLoop steadyClock 0 [js "gen_id: `zzz`"]
                  (absorb initialRead (js "gen_id: `abc123`")))
    = genId (absorb initialRead (js "gen_id: `abc123`")).
Proof.
  split.
  - apply (ImageExtras.first_extraction_is_kept steadyClock 0%Z
             [js "![y](https://other/b.png)"]
             (absorb initialRead (js "![x](https://host/img.png)"))).
    vm_compute. reflexivity.
  - apply (ImageExtras.first_extraction_is_kept steadyClock 0%Z
             [js "gen_id: `zzz`"]
             (absorb initialRead (js "gen_id: `abc123`"))).
    vm_compute. reflexivity.
Defined.

(** ** Runs of generateImage *)

(** When [fetch] itself rejects with an error, the run emits one error
    event and returns the fallback message.  The event carries the
    error's message, or the text [Unknown error during image generation]
    when that message is empty; the fallback message always carries the
    error's own message, also when it is empty. *)
Theorem rejected_fetch_is_reported :
  forall w state config e,
    truthy (promptOf state) = true ->
    truthy (apiKeyOf config) = true ->
    fetch w (requestFor state config) = Throw e ->
    events (trace (generateImage w state config))
      = [ logGenerating (promptOf state); logRequest (apiUrlOf config);
          EvError (if truthy (message e) then message e
                   else js "Unknown error during image generation") ] /\
    result (generateImage w state config)
      = Return [SystemMessage (js "图像生成错误: " ++ message e)].
Proof.
  intros w state config e H K F.
  rewrite (generateImage_fetch_throws w state config e H K F).
  split; reflexivity.
Qed.

(** ** The request *)

Lemma processResponse_sends_nothing w query model ratio response :
  requestsSent (trace (tryCatch (processResponse w query model ratio response) handleError))
  = [].
Proof.
  unfold processResponse.
  destruct (ok response); cbn [negb]; [|reflexivity].
  destruct (body response) as [chunks|]; [|reflexivity].
  destruct (truthy (imageUrl (readStream w chunks))); reflexivity.
Qed.

(** A run sends exactly the request built from the state and the
    configuration when the prompt and the API key are present, and no
    request otherwise.  The request is authorised with [Bearer] and the
    key; it carries a [gen_id] only when the state has a non-empty one. *)
Theorem request_sent :
  forall w state config,
    requestsSent (trace (generateImage w state config))
      = (if truthy (promptOf state) && truthy (apiKeyOf config)
         then [requestFor state config] else []) /\
    req_authorization (requestFor state config) = js "Bearer " ++ apiKeyOf config /\
    fc_prompt (req_content (requestFor state config)) = promptOf state /\
    (forall g, fc_gen_id (req_content (requestFor state config)) = Some g <->
               st_gen_id state = Some g /\ truthy g = true).
Proof.
  intros w state config. split; [|split; [reflexivity|split; [reflexivity|]]].
  - destruct (truthy (promptOf state)) eqn:H.
    2:{ rewrite generateImage_no_prompt by exact H. reflexivity. }
    destruct (truthy (apiKeyOf config)) eqn:K.
    2:{ rewrite generateImage_no_key by assumption. reflexivity. }
    cbn [andb].
    destruct (fetch w (requestFor state config)) as [response|e] eqn:F.
    + rewrite (generateImage_run w state config response H K F).
      unfold trace at 1. cbn [fst]. unfold requestsSent at 1.
      rewrite flat_map_app.
      fold (requestsSent (trace (tryCatch (processResponse w (promptOf state)
                                           (modelOf config) (ratioOf config) response)
                                          handleError))).
      rewrite processResponse_sends_nothing. reflexivity.
    + rewrite (generateImage_fetch_throws w state config e H K F). reflexivity.
  - intros g. unfold requestFor, requestOf. cbn [req_content fc_gen_id].
    destruct (st_gen_id state) as [x|]; cbn [truthy_opt].
    + destruct (truthy x) eqn:T; split.
      * intros E. injection E as <-. split; [reflexivity | exact T].
      * intros [E _]. exact E.
      * discriminate.
      * intros [E T']. injection E as ->. congruence.
    + split; [discriminate | intros [E _]; discriminate].
Qed.

(** ** The title *)

(** The title of the image is the fixed prefix followed by the prompt
    when the prompt has at most 30 code units, and by its first 30 code
    units and an ellipsis otherwise; it never has more than 39 code
    units. *)
Theorem image_title_bounded :
  forall query,
    List.length (imageTitle query) <= 39 /\
    (List.length query <= 30 -> imageTitle query = js "生成图像: " ++ query) /\
    (30 < List.length query ->
     imageTitle query = js "生成图像: " ++ firstn 30 query ++ js "...").
Proof.
  intros query. unfold imageTitle, substring0.
  destruct (30 <? List.length query)%nat eqn:E.
  - apply Nat.ltb_lt in E. split; [|split].
    + rewrite !length_app, length_firstn.
      change (List.length (js "生成图像: ")) with 6.
      change (List.length (js "...")) with 3. lia.
    + intros H. lia.
    + intros _. reflexivity.
  - apply Nat.ltb_ge in E. split; [|split].
    + rewrite app_nil_r, length_app, length_firstn.
      change (List.length (js "生成图像: ")) with 6. lia.
    + intros _. rewrite firstn_all2 by exact E. rewrite app_nil_r. reflexivity.
    + intros H. lia.
Qed.

Lemma image_title_bounded_witness :
  imageTitle (js "a cat") = js "生成图像: " ++ js "a cat" /\
  imageTitle (js "a very long prompt that does not fit the title")
    = js "生成图像: " ++ firstn 30 (js "a very long prompt that does not fit the title")
         ++ js "...".
Proof.
  split.
  - apply (image_title_bounded (js "a cat")). vm_compute. lia.
  - apply (image_title_bounded (js "a very long prompt that does not fit the title")).
    vm_compute. lia.
Defined.

(** ** The artifact and the canvas node *)



(** ** The schema and the fallbacks *)

(** The fallbacks of [generateImage] are the default values of the
    configuration schema: for each of the four options, a configuration
    that does not give it makes [generateImage] use the default value
    the schema declares under that key, so the request built with the
    schema's defaults is the request built without any [tplConfig].  As
    the default API key is empty, a run with the defaults and a prompt
    fails with the API-key error before any request.  Every select
    item's default is one of its options. *)
Theorem schema_defaults_are_the_fallbacks :
  (forall config,
      (option_bind (tplConfig config) tpl_apiUrl = None ->
       schemaDefault (js "apiUrl") = Some (apiUrlOf config)) /\
      (option_bind (tplConfig config) tpl_apiKey = None ->
       schemaDefault (js "apiKey") = Some (apiKeyOf config)) /\
      (option_bind (tplConfig config) tpl_imageRatio = None ->
       schemaDefault (js "imageRatio") = Some (ratioOf config)) /\
      (option_bind (tplConfig config) tpl_model = None ->
       schemaDefault (js "model") = Some (modelOf config))) /\
  (forall state, requestFor state schemaDefaults = requestFor state noTplConfig) /\
  (forall w state,
      truthy (promptOf state) = true ->
      generateImage w state schemaDefaults = ([], Throw (newError msgApiKeyRequired))) /\
  Forall (fun i => ci_inputMode i = InputSelect -> In (ci_defaultValue i) (ci_options i))
         configSchema.
Proof.
  split; [|split; [|split]].
  - intros config. unfold apiUrlOf, apiKeyOf, ratioOf, modelOf.
    split; [|split; [|split]]; intros ->; vm_compute; reflexivity.
  - intros state. unfold requestFor.
    replace (apiUrlOf schemaDefaults) with (apiUrlOf noTplConfig)
      by (vm_compute; reflexivity).
    replace (apiKeyOf schemaDefaults) with (apiKeyOf noTplConfig)
      by (vm_compute; reflexivity).
    replace (ratioOf schemaDefaults) with (ratioOf noTplConfig)
      by (vm_compute; reflexivity).
    replace (modelOf schemaDefaults) with (modelOf noTplConfig)
      by (vm_compute; reflexivity).
    reflexivity.
  - intros w state H. apply generateImage_no_key; [exact H | vm_compute; reflexivity].
  - repeat constructor; intros; simpl; try discriminate; auto.
Qed.

End ImageRunExtras.

(* ================================================================== *)
(** * More properties of the agent skill *)
(* ================================================================== *)

Module AgentExtras.
Import Agent EffFacts AgentFacts AgentReaders.

Section Facts.

Context {ModelInfo User McpServers Tool Model MentionedContext PromptModule : Type}.

Variable env : Env ModelInfo User McpServers Tool Model MentionedContext PromptModule.

Ltac split_run :=
  repeat (cbn [fst snd app];
          match goal with
          | |- context [match ?x with _ => _ end] => destruct x eqn:?
          end);
  cbn [fst snd app].

(** ** The conditional edge and the message history *)

(** The conditional edge looks at the last message only: the messages
    before it do not change the route.  On a history without messages
    it throws a [TypeError]; on every other history it returns, and it
    never routes back to [llm]. *)
Theorem edge_reads_last_message_only :
  (forall ms m, routeAfterLlm (ms ++ [m]) = routeAfterLlm [m]) /\
  (exists e, routeAfterLlm [] = Throw e /\ name e = js "TypeError") /\
  (forall ms m, routeAfterLlm (ms ++ [m]) = Return END
                \/ routeAfterLlm (ms ++ [m]) = Return (Goto Tools)).
Proof.
  split; [|split].
  - intros ms m. unfold routeAfterLlm.
    rewrite lastMessage_snoc. reflexivity.
  - eexists. split; reflexivity.
  - intros ms m. unfold routeAfterLlm. rewrite lastMessage_snoc.
    destruct (tool_calls m) as [[|c cs]|]; auto.
Qed.

(** ** The URLs handed to the crawler *)

Lemma validUrls_valid (contextUrls : list UrlItem) :
  Forall (fun u => truthy u = true /\ isValidUrl env u = true) (validUrls env contextUrls).
Proof.
  apply Forall_forall. intros u Hu. unfold validUrls in Hu.
  apply filter_In in Hu. destruct Hu as [_ Hu]. apply andb_prop in Hu. exact Hu.
Qed.

Lemma crawlContextUrls_calls config :
  (crawlCalls (trace (crawlContextUrls env config)) = [] /\
   (forall l, urls config = Some l -> validUrls env l = [])) \/
  (exists l, urls config = Some l /\ validUrls env l <> [] /\
             crawlCalls (trace (crawlContextUrls env config)) = [(validUrls env l, 5%Z, 8%Z)]).
Proof.
  unfold crawlContextUrls. destruct (urls config) as [l|].
  - destruct (0 <? List.length l)%nat eqn:E.
    + destruct (0 <? List.length (validUrls env l))%nat eqn:E'.
      * right. exists l. split; [reflexivity|]. split; [|reflexivity].
        intros H. rewrite H in E'. discriminate.
      * left. split; [reflexivity|]. intros l' Hl'. injection Hl' as <-.
        destruct (validUrls env l); [reflexivity | discriminate].
    + left. split; [reflexivity|]. intros l' Hl'. injection Hl' as <-.
      destruct l; [reflexivity | discriminate].
  - left. split; [reflexivity | discriminate].
Qed.

Lemma crawlCalls_app (t1 t2 : list (@Effect ModelInfo MentionedContext PromptModule)) :
  crawlCalls (t1 ++ t2) = crawlCalls t1 ++ crawlCalls t2.
Proof. apply flat_map_app. Qed.

Lemma assemble_no_crawl state config module ci q urlSources :
  crawlCalls (trace (assemble env state config module ci q urlSources)) = [].
Proof.
  unfold assemble, bind, call, perform, ret, trace.
  split_run; reflexivity.
Qed.

Lemma commonPreprocess_crawlCalls state config module ci :
  crawlCalls (trace (commonPreprocess env state config module ci)) = [] \/
  crawlCalls (trace (commonPreprocess env state config module ci))
  = crawlCalls (trace (crawlContextUrls env config)).
Proof.
  destruct (processQuery env state config true) as [q|e] eqn:Hq.
  2:{ left. unfold commonPreprocess. rewrite bind_perform, Hq, bind_call_throw. reflexivity. }
  right.
  destruct (commonPreprocess_cases env state config module ci q Hq)
    as [(e & _ & ->) | [(e & _ & ->) | (ctx & qry & Hc & He)]].
  - rewrite trace_pair. reflexivity.
  - rewrite trace_pair.
    change (SetStep (js "analyzeQuery") :: ProcessQuery true :: ?x)
      with ([SetStep (js "analyzeQuery"); ProcessQuery true] ++ x).
    rewrite !crawlCalls_app. cbn [crawlCalls flat_map app]. rewrite app_nil_r. reflexivity.
  - rewrite (commonPreprocess_crawled env state config module ci q ctx qry Hq Hc He).
    rewrite trace_pair.
    change (SetStep (js "analyzeQuery") :: ProcessQuery true :: ?x)
      with ([SetStep (js "analyzeQuery"); ProcessQuery true] ++ x).
    change (ExtractAndCrawlUrls (query q) 5 8 :: ?x)
      with ([ExtractAndCrawlUrls (query q) 5 8] ++ x).
    rewrite !crawlCalls_app, assemble_no_crawl.
    cbn [crawlCalls flat_map app]. rewrite app_nil_r. reflexivity.
Qed.

(** [commonPreprocess] calls the crawler for context URLs at most once,
    and only with a non-empty list of URLs that are all non-empty and
    valid, with concurrency limit 5 and batch size 8; when the
    configuration has no URL that passes the filter, the crawler is not
    called for them. *)
Theorem crawler_gets_valid_urls_only :
  forall state config module ci,
    Forall (crawlWellFormed (isValidUrl env))
           (crawlCalls (trace (commonPreprocess env state config module ci))) /\
    List.length (crawlCalls (trace (commonPreprocess env state config module ci))) <= 1 /\
    ((forall l, urls config = Some l -> validUrls env l = []) ->
     crawlCalls (trace (commonPreprocess env state config module ci)) = []).
Proof.
  intros state config module ci.
  destruct (commonPreprocess_crawlCalls state config module ci) as [-> | ->].
  { split; [constructor|]. split; [simpl; lia | reflexivity]. }
  destruct (crawlContextUrls_calls config) as [[-> _] | (l & Hl & Hne & ->)].
  - split; [constructor|]. split; [simpl; lia | reflexivity].
  - split; [|split].
    + constructor; [|constructor]. unfold crawlWellFormed. cbn [fst snd].
      split; [exact Hne|]. split; [apply validUrls_valid|]. split; reflexivity.
    + simpl. lia.
    + intros H. exfalso. apply Hne. apply H. exact Hl.
Qed.

(** ** What commonPreprocess returns *)

Lemma assemble_returns state config module ci q urlSources rm srcs :
  result (assemble env state config module ci q urlSources) = Return (rm, srcs) ->
  (prepareCalls (trace (assemble env state config module ci q urlSources)) = [] /\
   srcs = [] /\
   exists b,
     buildCalls (trace (assemble env state config module ci q urlSources)) = [b] /\
     ba_context b = [] /\ ba_needPrepareContext b = false /\
     buildFinalRequestMessages env b = Return rm)
  \/
  (exists p prepared b,
      prepareCalls (trace (assemble env state config module ci q urlSources)) = [p] /\
      prepareContext env p = Return prepared /\
      pc_urlSources p = urlSources /\
      pc_maxTokens p = remainingTokens q /\
      (0 < remainingTokens q)%Z /\
      srcs = pc_sources prepared /\
      buildCalls (trace (assemble env state config module ci q urlSources)) = [b] /\
      ba_context b = contextStr prepared /\
      ba_needPrepareContext b = checkModelContextLenSupport env (chatModelInfo config) /\
      buildFinalRequestMessages env b = Return rm).
Proof.
  unfold assemble.
  destruct ((hasContext q || (0 <? List.length urlSources)%nat
             || enableKnowledgeBaseSearchOf config) && (0 <? remainingTokens q)%Z)
           eqn:Need.
  - apply andb_prop in Need. destruct Need as [_ Hb]. apply Z.ltb_lt in Hb.
    match goal with
    | |- context [call (PrepareContext ?a) _] =>
      destruct (prepareContext env a) as [prepared|e] eqn:Hp
    end.
    2:{ unfold bind, call, perform, ret, result, trace. cbn [fst snd]. discriminate. }
    unfold bind, call, perform, ret, result, trace. cbn [fst snd app].
    match goal with
    | |- context [buildFinalRequestMessages env ?a] =>
      destruct (buildFinalRequestMessages env a) as [rm'|e] eqn:Hbuild
    end; cbn [fst snd app]; [|discriminate].
    intros H. injection H as <- <-. right.
    eexists _, prepared, _. split; [reflexivity|]. split; [exact Hp|].
    split; [reflexivity|]. split; [reflexivity|]. split; [exact Hb|].
    split; [reflexivity|]. split; [reflexivity|]. split; [reflexivity|].
    split; [reflexivity | exact Hbuild].
  - unfold bind, call, perform, ret, result, trace. cbn [fst snd app].
    match goal with
    | |- context [buildFinalRequestMessages env ?a] =>
      destruct (buildFinalRequestMessages env a) as [rm'|e] eqn:Hbuild
    end; cbn [fst snd app]; [|discriminate].
    intros H. injection H as <- <-. left.
    split; [reflexivity|]. split; [reflexivity|].
    eexists. split; [reflexivity|]. split; [reflexivity|].
    split; [reflexivity | exact Hbuild].
Qed.

Lemma commonPreprocess_returned state config module ci rm srcs :
  result (commonPreprocess env state config module ci) = Return (rm, srcs) ->
  exists q ctx qry,
    processQuery env state config true = Return q /\
    result (crawlContextUrls env config) = Return ctx /\
    extractAndCrawlUrls env (query q) = Return qry /\
    result (assemble env state config module ci q (ctx ++ qry)) = Return (rm, srcs).
Proof.
  intros H.
  destruct (processQuery env state config true) as [q|e] eqn:Hq.
  2:{ unfold commonPreprocess in H. rewrite bind_perform, Hq, bind_call_throw in H.
      discriminate. }
  destruct (commonPreprocess_cases env state config module ci q Hq)
    as [(e & _ & Hrun) | [(e & _ & Hrun) | (ctx & qry & Hc & He)]].
  - rewrite Hrun in H. discriminate.
  - rewrite Hrun in H. discriminate.
  - exists q, ctx, qry. repeat split; try assumption.
    rewrite (commonPreprocess_crawled env state config module ci q ctx qry Hq Hc He) in H.
    exact H.
Qed.

(** When [commonPreprocess] returns, the request messages are what the
    message builder returned for its single call, and the sources are
    what the context preparer returned.  Either the preparer was not
    called: then there are no sources, and the builder got the empty
    context with [needPrepareContext] false.  Or it was called once,
    with a positive [maxTokens] and the merged URL sources: then the
    builder got the prepared context string, with [needPrepareContext]
    equal to the model's context-length support. *)
Theorem preprocess_result :
  forall state config module ci rm srcs,
    result (commonPreprocess env state config module ci) = Return (rm, srcs) ->
    (prepareCalls (trace (commonPreprocess env state config module ci)) = [] /\
     srcs = [] /\
     exists b,
       buildCalls (trace (commonPreprocess env state config module ci)) = [b] /\
       ba_context b = [] /\ ba_needPrepareContext b = false /\
       buildFinalRequestMessages env b = Return rm)
    \/
    (exists p prepared b,
        prepareCalls (trace (commonPreprocess env state config module ci)) = [p] /\
        prepareContext env p = Return prepared /\
        (0 < pc_maxTokens p)%Z /\
        srcs = pc_sources prepared /\
        buildCalls (trace (commonPreprocess env state config module ci)) = [b] /\
        ba_context b = contextStr prepared /\
        ba_needPrepareContext b = checkModelContextLenSupport env (chatModelInfo config) /\
        buildFinalRequestMessages env b = Return rm).
Proof.
  intros state config module ci rm srcs H.
  destruct (commonPreprocess_returned state config module ci rm srcs H)
    as (q & ctx & qry & Hq & Hc & He & Ha).
  rewrite (commonPreprocess_crawled env state config module ci q ctx qry Hq Hc He).
  rewrite !trace_pair.
  destruct (crawlContextUrls_quiet env config) as (_ & _ & Hnp & Hnb).
  change (SetStep (js "analyzeQuery") :: ProcessQuery true :: ?x)
    with ([SetStep (js "analyzeQuery"); ProcessQuery true] ++ x).
  change (ExtractAndCrawlUrls (query q) 5 8 :: ?x)
    with ([ExtractAndCrawlUrls (query q) 5 8] ++ x).
  rewrite !prepareCalls_app, !buildCalls_app, Hnp, Hnb.
  cbn [prepareCalls buildCalls flat_map app].
  destruct (assemble_returns state config module ci q (ctx ++ qry) rm srcs Ha)
    as [(Hp & Hs & b & Hb & Hctx & Hneed & Hbuild)
       | (p & prepared & b & Hp & Hprep & _ & Hmax & Hpos & Hs & Hb & Hctx & Hneed & Hbuild)].
  - left. fold (prepareCalls (trace (assemble env state config module ci q (ctx ++ qry)))).
    fold (buildCalls (trace (assemble env state config module ci q (ctx ++ qry)))).
    rewrite Hp, Hb. split; [reflexivity|]. split; [exact Hs|].
    exists b. repeat split; assumption.
  - right. fold (prepareCalls (trace (assemble env state config module ci q (ctx ++ qry)))).
    fold (buildCalls (trace (assemble env state config module ci q (ctx ++ qry)))).
    rewrite Hp, Hb. exists p, prepared, b.
    split; [reflexivity|]. split; [exact Hprep|]. split; [rewrite Hmax; exact Hpos|].
    repeat split; assumption.
Qed.

(** ** When the context preparer is called *)

Lemma assemble_prepare_calls state config module ci q urlSources :
  Forall (fun p => (0 < pc_maxTokens p)%Z /\
                   pc_enableKnowledgeBaseSearch p = enableKnowledgeBaseSearchOf config)
         (prepareCalls (trace (assemble env state config module ci q urlSources))).
Proof.
  unfold assemble.
  destruct ((hasContext q || (0 <? List.length urlSources)%nat
             || enableKnowledgeBaseSearchOf config) && (0 <? remainingTokens q)%Z)
           eqn:Need.
  - apply andb_prop in Need. destruct Need as [_ Hb]. apply Z.ltb_lt in Hb.
    unfold bind, call, perform, ret, trace.
    split_run; repeat constructor; assumption.
  - unfold bind, call, perform, ret, trace.
    split_run; constructor.
Qed.

Lemma enableKnowledgeBaseSearchOf_spec (config : @Configurable ModelInfo User) :
  enableKnowledgeBaseSearchOf config = true <-> knowledgeBaseRequested config.
Proof.
  unfold enableKnowledgeBaseSearchOf, knowledgeBaseRequested. split.
  - intros H. apply andb_prop in H. destruct H as [Hp Hr].
    destruct (project config) as [p|]; [|discriminate].
    destruct (projectId p) as [id|] eqn:Hid; [|discriminate].
    destruct (runtimeConfig config) as [r|]; [|discriminate].
    exists p, id, r. repeat split; assumption.
  - intros (p & id & r & -> & Hid & Ht & -> & Hr).
    rewrite Hid, Hr. cbn [truthy_opt]. rewrite Ht. reflexivity.
Qed.

(** Every call of the context preparer made by [commonPreprocess] has a
    positive [maxTokens], and it is told to search the knowledge base
    exactly when the project has an id and the runtime configuration
    enables the knowledge base. *)
Theorem preparer_called_with_budget :
  forall state config module ci,
    Forall (fun p => (0 < pc_maxTokens p)%Z /\
                     (pc_enableKnowledgeBaseSearch p = true <->
                      knowledgeBaseRequested config))
           (prepareCalls (trace (commonPreprocess env state config module ci))).
Proof.
  intros state config module ci.
  assert (Hweak : forall l : list (@PrepareContextArgs MentionedContext),
             Forall (fun p => (0 < pc_maxTokens p)%Z /\
                              pc_enableKnowledgeBaseSearch p
                              = enableKnowledgeBaseSearchOf config) l ->
             Forall (fun p => (0 < pc_maxTokens p)%Z /\
                              (pc_enableKnowledgeBaseSearch p = true <->
                               knowledgeBaseRequested config)) l).
  { intros l. apply Forall_impl. intros p [Hpos Hkb]. split; [exact Hpos|].
    rewrite Hkb. apply enableKnowledgeBaseSearchOf_spec. }
  apply Hweak.
  destruct (crawlContextUrls_quiet env config) as (_ & _ & Hnp & _).
  destruct (processQuery env state config true) as [q|e] eqn:Hq.
  2:{ unfold commonPreprocess. rewrite bind_perform, Hq, bind_call_throw. constructor. }
  destruct (commonPreprocess_cases env state config module ci q Hq)
    as [(e & _ & ->) | [(e & _ & ->) | (ctx & qry & Hc & He)]].
  - rewrite trace_pair.
    change (SetStep (js "analyzeQuery") :: ProcessQuery true :: ?x)
      with ([SetStep (js "analyzeQuery"); ProcessQuery true] ++ x).
    rewrite !prepareCalls_app, Hnp. constructor.
  - rewrite trace_pair.
    change (SetStep (js "analyzeQuery") :: ProcessQuery true :: ?x)
      with ([SetStep (js "analyzeQuery"); ProcessQuery true] ++ x).
    rewrite !prepareCalls_app, Hnp. constructor.
  - rewrite (commonPreprocess_crawled env state config module ci q ctx qry Hq Hc He).
    rewrite trace_pair.
    change (SetStep (js "analyzeQuery") :: ProcessQuery true :: ?x)
      with ([SetStep (js "analyzeQuery"); ProcessQuery true] ++ x).
    change (ExtractAndCrawlUrls (query q) 5 8 :: ?x)
      with ([ExtractAndCrawlUrls (query q) 5 8] ++ x).
    rewrite !prepareCalls_app, Hnp. cbn [prepareCalls flat_map app].
    apply assemble_prepare_calls.
Qed.

(** ** setupAgent *)

(** If listing the MCP servers fails, [setupAgent] rethrows that error
    and creates no client.  Otherwise it creates one client, and either
    returns the model bound to a non-empty list of tools, the list the
    client reported, or throws [Failed to initialize MCP tools]: that
    one error replaces whatever went wrong after the client was created
    (connections, tool listing, an empty tool list, binding). *)
Theorem setup_outcomes :
  forall u,
    (forall e, listMcpServers env u = Throw e ->
               setupAgent env u = ([ListMcpServers], Throw e))
    /\
    (forall r, listMcpServers env u = Return r ->
       clients (trace (setupAgent env u)) = 1 /\
       ((exists model t ts,
            result (setupAgent env u) = Return (model, t :: ts) /\
            initializeConnections env = Return tt /\
            getTools env = Return (Some (t :: ts)) /\
            bindTools env (t :: ts) = Return model)
        \/ result (setupAgent env u)
           = Throw (newError (js "Failed to initialize MCP tools")))).
Proof.
  intros u. split.
  - intros e H. unfold setupAgent. rewrite H. reflexivity.
  - intros r H. split; [exact (setupAgent_clients env u r H)|].
    unfold setupAgent. rewrite H.
    unfold tryCatch, bind, call, perform, ret, throw, result, trace. cbn [fst snd].
    destruct (initializeConnections env) as [[]|e]; cbn [fst snd app];
      [|right; reflexivity].
    destruct (getTools env) as [[[|t ts]|]|e]; cbn [fst snd app];
      try (right; reflexivity).
    destruct (bindTools env (t :: ts)) as [model|e] eqn:Hb; cbn [fst snd app];
      [|right; reflexivity].
    left. exists model, t, ts. repeat split; try reflexivity; exact Hb.
Qed.

(** ** Failures before the client exists *)

(** When [commonPreprocess] throws, or when it returns and listing the
    MCP servers throws, [agentNode] rethrows the same error; no client
    was created and [close] is not called. *)
Theorem no_client_before_setup :
  forall state config module,
    (forall e,
        result (commonPreprocess env state config module (customInstructionsOf config))
          = Throw e ->
        result (agentNode env state config module) = Throw e /\
        clients (trace (agentNode env state config module)) = 0 /\
        closes (trace (agentNode env state config module)) = 0)
    /\
    (forall rm srcs e,
        result (commonPreprocess env state config module (customInstructionsOf config))
          = Return (rm, srcs) ->
        listMcpServers env (user config) = Throw e ->
        result (agentNode env state config module) = Throw e /\
        clients (trace (agentNode env state config module)) = 0 /\
        closes (trace (agentNode env state config module)) = 0).
Proof.
  intros state config module.
  destruct (commonPreprocess_quiet env state config module (customInstructionsOf config))
    as [Hc Hn].
  split.
  - intros e H. rewrite (agentNode_preprocess_fails env state config module e H).
    rewrite result_pair, trace_pair. repeat split; assumption.
  - intros rm srcs e Hp Hl.
    assert (Hs : setupAgent env (user config) = ([ListMcpServers], Throw e)).
    { unfold setupAgent. rewrite Hl. reflexivity. }
    assert (Hr : result (setupAgent env (user config)) = Throw e) by (rewrite Hs; reflexivity).
    rewrite (agentNode_setup_fails env state config module rm srcs e Hp Hr).
    rewrite result_pair, trace_pair, Hs, trace_pair.
    destruct (emitSources_quiet env srcs) as [Hec Hen].
    change (SetStep (js "answerQuestion") :: ?x) with ([SetStep (js "answerQuestion")] ++ x).
    rewrite !closes_app, !clients_app, Hc, Hn, Hec, Hen.
    repeat split; reflexivity.
Qed.

End Facts.

End AgentExtras.

Module AgentExtraSamples.
Import Agent AgentFacts AgentReaders AgentExtras AgentSamples AgentMoreSamples.

Lemma crawler_gets_valid_urls_only_witness :
  crawlCalls (trace (commonPreprocess loopingEnv sampleState noUrlsConfig tt None)) = [].
Proof.
  apply (crawler_gets_valid_urls_only loopingEnv sampleState noUrlsConfig tt None).
  intros l H. discriminate.
Defined.

(** With the two context URLs of the sample configuration the crawler
    is called once, with both. *)
Example crawler_sample :
  crawlCalls (trace (commonPreprocess loopingEnv sampleState sampleConfig tt None))
  = [([js "https://a.example/"; js "https://b.example/"], 5%Z, 8%Z)].
Proof. vm_compute. reflexivity. Qed.

Lemma preprocess_result_witness :
  (prepareCalls (trace (commonPreprocess brokeEnv sampleState sampleConfig tt None)) = [] /\
   @nil Source = [] /\
   exists b,
     buildCalls (trace (commonPreprocess brokeEnv sampleState sampleConfig tt None)) = [b] /\
     ba_context b = [] /\ ba_needPrepareContext b = false /\
     buildFinalRequestMessages brokeEnv b = Return [human (js "what is new")])
  \/
  (exists p prepared b,
      prepareCalls (trace (commonPreprocess brokeEnv sampleState sampleConfig tt None)) = [p] /\
      prepareContext brokeEnv p = Return prepared /\
      (0 < pc_maxTokens p)%Z /\
      @nil Source = pc_sources prepared /\
      buildCalls (trace (commonPreprocess brokeEnv sampleState sampleConfig tt None)) = [b] /\
      ba_context b = contextStr prepared /\
      ba_needPrepareContext b
        = checkModelContextLenSupport brokeEnv (chatModelInfo sampleConfig) /\
      buildFinalRequestMessages brokeEnv b = Return [human (js "what is new")]).
Proof.
  apply (preprocess_result brokeEnv sampleState sampleConfig tt None
                           [human (js "what is new")] []).
  vm_compute. reflexivity.
Defined.

Lemma setup_outcomes_witness :
  clients (trace (setupAgent noToolsEnv tt)) = 1 /\
  ((exists model t ts,
       result (setupAgent noToolsEnv tt) = Return (model, t :: ts) /\
       initializeConnections noToolsEnv = Return tt /\
       getTools noToolsEnv = Return (Some (t :: ts)) /\
       bindTools noToolsEnv (t :: ts) = Return model)
   \/ result (setupAgent noToolsEnv tt)
      = Throw (newError (js "Failed to initialize MCP tools"))).
Proof.
  apply (setup_outcomes noToolsEnv tt) with (r := tt). reflexivity.
Defined.

Lemma no_client_before_setup_witness :
  result (agentNode failingQueryEnv sampleState sampleConfig tt)
    = Throw (newError (js "query processor failed")) /\
  clients (trace (agentNode failingQueryEnv sampleState sampleConfig tt)) = 0 /\
  closes (trace (agentNode failingQueryEnv sampleState sampleConfig tt)) = 0.
Proof.
  apply (no_client_before_setup failingQueryEnv sampleState sampleConfig tt).
  vm_compute. reflexivity.
Defined.

End AgentExtraSamples.

(* ================================================================== *)
(** * Properties of the canvas deletion hook *)
(* ================================================================== *)

Module DeleteCanvasFacts.
Import DeleteCanvas.


(** While a deletion is in progress ([isRemoving] is set) a call of
    [deleteCanvas] does nothing and returns [undefined].  Otherwise it
    sets [isRemoving], sends exactly one delete request for the given
    canvas, and resets [isRemoving] as its last action, whether the
    request resolved or was rejected; a rejection is rethrown. *)
Theorem removing_flag_guards_and_resets :
  forall env canvasId,
    (isRemoving env = true -> deleteCanvas env canvasId = ([], Return None))
    /\
    (isRemoving env = false ->
     exists middle,
       trace (deleteCanvas env canvasId)
         = SetIsRemoving true :: DeleteCanvasRequest canvasId :: middle
             ++ [SetIsRemoving false] /\
       requests middle = [] /\
       Forall (fun e => match e with SetIsRemoving _ => False | _ => True end) middle /\
       (forall e, deleteCanvasApi env canvasId = Throw e ->
                  middle = [] /\ result (deleteCanvas env canvasId) = Throw e)).
Proof.
  intros env canvasId. split; intros H; unfold deleteCanvas; rewrite H; [reflexivity|].
  unfold tryFinally, bind, call, perform, ret, trace, result. cbn [fst snd app].
  destruct (deleteCanvasApi env canvasId) as [[[|]|]|e]; cbn [fst snd app].
  - destruct (isStored env canvasId); cbn [fst snd app].
    + exists [MessageSuccess (js "common.putSuccess"); RemoveCurrentCanvasId;
              GetCanvasList; Navigate (nextPath env canvasId)].
      split; [reflexivity|]. split; [reflexivity|].
      split; [repeat constructor | discriminate].
    + exists [MessageSuccess (js "common.putSuccess"); GetCanvasList].
      split; [reflexivity|]. split; [reflexivity|].
      split; [repeat constructor | discriminate].
  - exists []. split; [reflexivity|]. split; [reflexivity|]. split; [constructor | discriminate].
  - exists []. split; [reflexivity|]. split; [reflexivity|]. split; [constructor | discriminate].
  - exists []. split; [reflexivity|]. split; [reflexivity|]. split; [constructor|].
    intros e' He'. injection He' as <-. split; reflexivity.
Qed.

(** [deleteCanvas] returns [true] exactly when the API reported
    success, and only then shows the success message.  The
    [currentCanvasId] entry of the local storage is removed exactly when
    the deletion succeeded and the entry held the deleted canvas. *)
Theorem deletion_outcome :
  forall env canvasId answer,
    isRemoving env = false ->
    deleteCanvasApi env canvasId = Return answer ->
    result (deleteCanvas env canvasId)
      = Return (Some (match answer with Some true => true | _ => false end)) /\
    successMessages (trace (deleteCanvas env canvasId))
      = (match answer with Some true => 1 | _ => 0 end) /\
    removals (trace (deleteCanvas env canvasId))
      = (match answer with
         | Some true => if isStored env canvasId then 1 else 0
         | _ => 0
         end).
Proof.
  intros env canvasId answer H A. unfold deleteCanvas. rewrite H, A.
  unfold tryFinally, bind, call, perform, ret, trace, result. cbn [fst snd app].
  destruct answer as [[|]|]; cbn [fst snd app]; try (repeat split; reflexivity).
  destruct (isStored env canvasId); repeat split; reflexivity.
Qed.



End DeleteCanvasFacts.

(* ================================================================== *)
(** * Properties of the knowledge-base modal *)
(* ================================================================== *)

Module KnowledgeModalFacts.
Import KnowledgeModal.

Section Facts.

Context {Value : Type}.

Lemma jseqb_refl a : jseqb a a = true.
Proof. unfold jseqb. destruct (list_eq_dec N.eq_dec a a); congruence. Qed.

Lemma jseqb_true a b : jseqb a b = true -> a = b.
Proof. unfold jseqb. destruct (list_eq_dec N.eq_dec a b); congruence. Qed.

Lemma jseqb_sym a b : jseqb a b = jseqb b a.
Proof.
  unfold jseqb.
  destruct (list_eq_dec N.eq_dec a b), (list_eq_dec N.eq_dec b a); congruence.
Qed.

Lemma lookup_assign (k k' : jsstring) (v : Value) (o : JsObject) :
  lookup k (assign k' v o) = if jseqb k' k then Some v else lookup k o.
Proof.
  induction o as [|[k0 v0] o IH]; simpl.
  - destruct (jseqb k' k); reflexivity.
  - destruct (jseqb k0 k') eqn:E0; simpl.
    + apply jseqb_true in E0. subst k0.
      destruct (jseqb k' k); reflexivity.
    + destruct (jseqb k0 k) eqn:E1; [|exact IH].
      apply jseqb_true in E1. subst k0. rewrite (jseqb_sym k' k), E0. reflexivity.
Qed.

Lemma lookup_spread (k : jsstring) (a b : @JsObject Value) :
  lookup k (spread a b)
  = match lookup k (rev b) with Some v => Some v | None => lookup k a end.
Proof.
  unfold spread. revert a. induction b as [|[k' v'] b IH]; intros a; simpl.
  - reflexivity.
  - rewrite IH, lookup_assign.
    assert (Happ : forall (x y : @JsObject Value),
               lookup k (x ++ y)
               = match lookup k x with Some v => Some v | None => lookup k y end).
    { intros x y. induction x as [|[kx vx] x IHx]; simpl; [reflexivity|].
      destruct (jseqb kx k); [reflexivity | exact IHx]. }
    rewrite Happ. simpl.
    destruct (lookup k (rev b)); [reflexivity|].
    destruct (jseqb k' k); reflexivity.
Qed.

Lemma lookup_delete (k k' : jsstring) (o : @JsObject Value) :
  lookup k (delete k' o) = if jseqb k k' then None else lookup k o.
Proof.
  unfold delete. induction o as [|[k0 v0] o IH]; simpl.
  - destruct (jseqb k k'); reflexivity.
  - destruct (jseqb k0 k') eqn:E0; simpl.
    + rewrite IH. destruct (jseqb k k') eqn:E; [reflexivity|].
      destruct (jseqb k0 k) eqn:E1; [|reflexivity].
      apply jseqb_true in E1. subst k0. congruence.
    + destruct (jseqb k0 k) eqn:E1.
      * apply jseqb_true in E1. subst k0. rewrite E0. reflexivity.
      * exact IH.
Qed.

(** The body of an update request has no [resources] property; every
    other property is the form's value when the form has one (the last
    one, should a key repeat), and the edited project's value
    otherwise. *)
Theorem update_body_properties :
  forall (project res : @JsObject Value) (k : jsstring),
    lookup (js "resources") (requestBody project res) = None /\
    (k <> js "resources" ->
     lookup k (requestBody project res)
     = match lookup k (rev res) with
       | Some v => Some v
       | None => lookup k project
       end).
Proof.
  intros project res k. unfold requestBody. split.
  - rewrite lookup_delete, jseqb_refl. reflexivity.
  - intros Hk. rewrite lookup_delete.
    destruct (jseqb k (js "resources")) eqn:E.
    + apply jseqb_true in E. contradiction.
    + apply lookup_spread.
Qed.

Variable env : @Env Value.

Lemma submit_run (res : JsObject) :
  submit env res
  = match apiOutcome env res with
    | Return hasError =>
      ( SetConfirmLoading true
          :: match editProject env with
             | Some project => UpdateProject (requestBody project res)
             | None => CreateProject res
             end
          :: SetConfirmLoading false
          :: (if hasError
              then [MessageError (modalKey env "editFailed" "failed")]
              else [ SetShowNewKnowledgeModal false;
                     MessageSuccess (modalKey env "editSuccessful" "successful");
                     SetReloadKnowledgeBaseList true ]),
        Return tt )
    | Throw _ =>
      ( [ SetConfirmLoading true;
          match editProject env with
          | Some project => UpdateProject (requestBody project res)
          | None => CreateProject res
          end;
          MessageError (modalKey env "editFailed" "failed");
          SetConfirmLoading false ],
        Return tt )
    end.
Proof.
  unfold submit, apiOutcome.
  destruct (editProject env) as [project|].
  - destruct (updateProject env (requestBody project res)) as [[|]|e]; reflexivity.
  - destruct (createProject env res) as [[|]|e]; reflexivity.
Qed.

Lemma onOk_validated (res : JsObject) :
  validate env = Return res ->
  onOk env = (Validate :: trace (submit env res), Return tt).
Proof.
  intros H.
  assert (Hr : snd (submit env res) = Return tt).
  { rewrite submit_run. destruct (apiOutcome env res) as [[|]|e]; reflexivity. }
  unfold onOk. rewrite H. unfold tryCatch, bind, call, trace.
  cbn [fst snd app]. rewrite Hr. cbn [fst snd app]. reflexivity.
Qed.

(** [onOk] never throws.  When the validation is rejected it does
    nothing else: no request, no loading state, no message.  When the
    validation resolves, it first sets the loading state, then makes
    its one API call, an update with the request body when a project is
    being edited and a creation with the form's values otherwise; what
    follows the call makes no further call and resets the loading state
    exactly once, whether the call resolved or was rejected. *)
Theorem submission_is_gated_by_validation :
  result (onOk env) = Return tt /\
  (forall e, validate env = Throw e -> trace (onOk env) = [Validate]) /\
  (forall res,
      validate env = Return res ->
      exists tail,
        trace (onOk env)
          = Validate
              :: SetConfirmLoading true
              :: (match editProject env with
                  | Some project => UpdateProject (requestBody project res)
                  | None => CreateProject res
                  end)
              :: tail /\
        loadingChanges tail = [false] /\
        updateCalls tail = [] /\
        createCalls tail = []).
Proof.
  split; [|split].
  - destruct (validate env) as [res|e] eqn:H.
    + rewrite (onOk_validated res H). reflexivity.
    + unfold onOk. rewrite H. reflexivity.
  - intros e H. unfold onOk. rewrite H. reflexivity.
  - intros res H. rewrite (onOk_validated res H), submit_run.
    destruct (apiOutcome env res) as [[|]|e]; eexists;
      (split; [reflexivity|]); repeat split; reflexivity.
Qed.


End Facts.

End KnowledgeModalFacts.

(* ================================================================== *)
(** * The further properties on sample runs *)
(* ================================================================== *)

Module MoreWitnesses.
Import ImageGeneration ImageConfig Samples MoreSamples.

Lemma rejected_fetch_is_reported_witness :
  events (trace (generateImage offlineWorld catState keyConfig))
    = [ logGenerating (promptOf catState); logRequest (apiUrlOf keyConfig);
        EvError (if truthy (message silentError) then message silentError
                 else js "Unknown error during image generation") ] /\
  result (generateImage offlineWorld catState keyConfig)
    = Return [SystemMessage (js "图像生成错误: " ++ message silentError)].
Proof.
  apply (ImageRunExtras.rejected_fetch_is_reported offlineWorld catState keyConfig silentError);
    vm_compute; reflexivity.
Defined.

Lemma schema_defaults_are_the_fallbacks_witness :
  schemaDefault (js "imageRatio") = Some (ratioOf keyConfig) /\
  schemaDefault (js "model") = Some (modelOf keyConfig) /\
  generateImage offlineWorld catState schemaDefaults
  = ([], Throw (newError msgApiKeyRequired)).
Proof.
  destruct ImageRunExtras.schema_defaults_are_the_fallbacks as (Hopt & _ & Hkey & _).
  destruct (Hopt keyConfig) as (_ & _ & Hratio & Hmodel).
  split; [|split].
  - apply Hratio. reflexivity.
  - apply Hmodel. reflexivity.
  - apply (Hkey offlineWorld catState). vm_compute. reflexivity.
Defined.

End MoreWitnesses.

Module DeleteCanvasWitnesses.
Import DeleteCanvas DeleteCanvasSamples.

Lemma removing_flag_guards_and_resets_witness :
  deleteCanvas busyEnv (js "c1") = ([], Return None) /\
  exists middle,
    trace (deleteCanvas failingEnv (js "c1"))
      = SetIsRemoving true :: DeleteCanvasRequest (js "c1") :: middle
          ++ [SetIsRemoving false] /\
    requests middle = [] /\
    Forall (fun e => match e with SetIsRemoving _ => False | _ => True end) middle /\
    (forall e, deleteCanvasApi failingEnv (js "c1") = Throw e ->
               middle = [] /\ result (deleteCanvas failingEnv (js "c1")) = Throw e).
Proof.
  split.
  - apply (proj1 (DeleteCanvasFacts.removing_flag_guards_and_resets busyEnv (js "c1"))).
    reflexivity.
  - apply (proj2 (DeleteCanvasFacts.removing_flag_guards_and_resets failingEnv (js "c1"))).
    reflexivity.
Defined.

Lemma deletion_outcome_witness :
  result (deleteCanvas idleEnv (js "c1")) = Return (Some true) /\
  successMessages (trace (deleteCanvas idleEnv (js "c1"))) = 1 /\
  removals (trace (deleteCanvas idleEnv (js "c1")))
    = (if isStored idleEnv (js "c1") then 1 else 0).
Proof.
  apply (DeleteCanvasFacts.deletion_outcome idleEnv (js "c1") (Some true)); reflexivity.
Defined.


End DeleteCanvasWitnesses.

Module KnowledgeModalWitnesses.
Import KnowledgeModal KnowledgeModalSamples.

Lemma update_body_properties_witness :
  lookup (js "title") (requestBody editedProject formValues)
  = match lookup (js "title") (rev formValues) with
    | Some v => Some v
    | None => lookup (js "title") editedProject
    end.
Proof.
  apply (proj2 (KnowledgeModalFacts.update_body_properties editedProject formValues (js "title"))).
  intros H. vm_compute in H. discriminate H.
Defined.

Lemma submission_is_gated_by_validation_witness :
  trace (onOk rejectedEnv) = [Validate] /\
  exists tail,
    trace (onOk editEnv)
      = Validate
          :: SetConfirmLoading true
          :: (match editProject editEnv with
              | Some project => UpdateProject (requestBody project formValues)
              | None => CreateProject formValues
              end)
          :: tail /\
    loadingChanges tail = [false] /\
    updateCalls tail = [] /\
    createCalls tail = [].
Proof.
  split.
  - apply (proj1 (proj2 (KnowledgeModalFacts.submission_is_gated_by_validation rejectedEnv))
                 (newError (js "title is required"))).
    reflexivity.
  - apply (proj2 (proj2 (KnowledgeModalFacts.submission_is_gated_by_validation editEnv))
                 formValues).
    reflexivity.
Defined.


End KnowledgeModalWitnesses.
